(** * Arthur: Perceval jobs and their retry loop (arthur/jobs.py)

    A shallow embedding of [arthur/jobs.py]: the [metadata] decorator, the
    [JobResult] record, the methods of [PercevalJob] and the function
    [execute_perceval_job], followed by the properties of the run and of
    the retry loop.

    Python objects are modelled as follows.
    - A value is a [pyval]; numeric timestamps and offsets are integers.
    - A dict with string keys is a [gmap string pyval].
    - The argument bag received by [run] is a mutable dict shared with the
      caller: it lives in a heap of dicts and is passed by address.
    - Exceptions are values of [exn]; a computation is a function from the
      state to a [result] and the state reached, so that the mutations made
      before a [raise] are kept.
    - Code that is not in the file (Perceval backends and cache, the
      parameter binder and the date conversion of grimoirelab-toolkit, the
      Redis connection, the RQ job) is a field of the environment [Env] or
      a component of the [world]. *)

From Stdlib Require Import ZArith.
From stdpp Require Import gmap strings list.

Local Open Scope string_scope.
Local Open Scope Z_scope.

(** ** Python values *)

Inductive pyval : Type :=
  | PNone
  | PInt (n : Z)
  | PStr (s : string)
  | PDatetime (ut : Z)
  | PCache (dirpath : string).

#[global] Instance pyval_eq_dec : EqDecision pyval.
Proof. solve_decision. Defined.

(** Truth value of an object, as tested by [if x:] and [not x]. *)
Definition truthy (v : pyval) : bool :=
  match v with
  | PNone => false
  | PInt n => negb (n =? 0)
  | PStr s => negb (String.eqb s "")
  | PDatetime _ => true
  | PCache _ => true
  end.

(** ** Exceptions *)

Inductive exn : Type :=
  | AttributeError (msg : string)
  | KeyError (key : string)
  | TypeError (msg : string)
  | ValueError (msg : string)
  | NotFoundError (element : string)
  | InvalidDateError (date : pyval)
  | BackendError (tag : string)      (* any other subclass of Exception *)
  | KeyboardInterrupt.               (* a BaseException that is no Exception *)

#[global] Instance exn_eq_dec : EqDecision exn.
Proof. solve_decision. Defined.

(** The [except] clause of [execute_perceval_job] that catches an exception:
    [except AttributeError] comes first, then [except Exception]; what is
    neither is not caught. *)
Inductive handler : Type := HAttributeError | HException | HUncaught.

Definition handler_of (e : exn) : handler :=
  match e with
  | AttributeError _ => HAttributeError
  | KeyboardInterrupt => HUncaught
  | _ => HException
  end.

Inductive result (A : Type) : Type :=
  | Ok (a : A)
  | Raise (e : exn).
Arguments Ok {A} a.
Arguments Raise {A} e.

(** [a < b] on Python objects: defined between two numbers, two strings or
    two datetimes, a [TypeError] otherwise. *)
Definition py_lt (a b : pyval) : result bool :=
  match a, b with
  | PInt x, PInt y => Ok (x <? y)
  | PStr x, PStr y => Ok (String.ltb x y)
  | PDatetime x, PDatetime y => Ok (x <? y)
  | _, _ => Raise (TypeError "'<' not supported")
  end.

(** ** Dicts, items and the heap of argument bags *)

Abbreviation dict := (gmap string pyval).
Abbreviation item := (gmap string pyval).
Abbreviation loc := positive.

(** [d[k]]: a [KeyError] when the key is missing. *)
Definition getitem (d : dict) (k : string) : result pyval :=
  match d !! k with
  | Some v => Ok v
  | None => Raise (KeyError k)
  end.

(** [k in d] *)
Definition contains (d : dict) (k : string) : bool :=
  bool_decide (is_Some (d !! k)).

(** ** External collaborators *)

(** A parameter of a Python signature: its name, and whether it has no
    default value. *)
Record param : Type := mkParam {
  p_name : string;
  p_required : bool
}.

(** What a call of [fetch] or [fetch_from_cache] produces: the items
    yielded, then either the end of the sequence or an exception. *)
Abbreviation production := (list item * option exn)%type.

(** A backend class of Perceval.  The outcome of a call depends on the
    arguments it receives and on [n], the number of runs started before. *)
Record backend_class : Type := mkBackend {
  bk_has_caching : bool;
  bk_has_resuming : bool;
  bk_init_sig : list param;
  bk_fetch_sig : list param;
  bk_fetch_from_cache_sig : list param;
  bk_init : nat -> dict -> option exn;
  bk_fetch : nat -> dict -> dict -> production;
  bk_fetch_from_cache : nat -> dict -> dict -> production
}.

(** Calls made on [perceval.cache.Cache] objects, in order. *)
Inductive cache_event : Type :=
  | CacheOpened (dirpath : string)
  | CacheBackup (dirpath : string)
  | CacheRecovered (dirpath : string).

#[global] Instance cache_event_eq_dec : EqDecision cache_event.
Proof. solve_decision. Defined.

(** What the file imports and does not define.  Each cache operation may
    raise, depending on its directory and on the operations made before. *)
Record Env : Type := mkEnv {
  version : string;                                   (* __version__ *)
  unixtime_to_datetime : pyval -> result pyval;
  find_backends : gmap string backend_class;
  rq_job_id : string;                                 (* rq.get_current_job().id *)
  cache_open : string -> list cache_event -> option exn;
  cache_backup : string -> list cache_event -> option exn;
  cache_recover : string -> list cache_event -> option exn
}.

(** Modelled from the spec: [find_signature_parameters] of
    grimoirelab-toolkit, the parameter binder.  It returns the candidates
    whose names are parameters of the signature, and raises
    [AttributeError] at the first parameter without a default value that
    is not among the candidates. *)
Fixpoint find_signature_parameters (sig : list param) (candidates : dict)
  : result dict :=
  match sig with
  | [] => Ok ∅
  | p :: sig' =>
      match candidates !! p_name p with
      | Some v =>
          match find_signature_parameters sig' candidates with
          | Ok exec_params => Ok (<[p_name p := v]> exec_params)
          | Raise e => Raise e
          end
      | None =>
          if p_required p
          then Raise (AttributeError ("required argument " +:+ p_name p +:+ " not found"))
          else find_signature_parameters sig' candidates
      end
  end.

(** ** JobResult *)

Module JobResult.
Record t : Type := mk {
  job_id : string;
  task_id : string;
  backend : string;
  last_uuid : pyval;
  max_date : pyval;
  nitems : Z;
  offset : pyval;
  nresumed : Z
}.

Definition set_last_uuid (v : pyval) (r : t) : t :=
  mk (job_id r) (task_id r) (backend r) v (max_date r) (nitems r) (offset r) (nresumed r).
Definition set_max_date (v : pyval) (r : t) : t :=
  mk (job_id r) (task_id r) (backend r) (last_uuid r) v (nitems r) (offset r) (nresumed r).
Definition set_nitems (n : Z) (r : t) : t :=
  mk (job_id r) (task_id r) (backend r) (last_uuid r) (max_date r) n (offset r) (nresumed r).
Definition set_offset (v : pyval) (r : t) : t :=
  mk (job_id r) (task_id r) (backend r) (last_uuid r) (max_date r) (nitems r) v (nresumed r).
Definition set_nresumed (n : Z) (r : t) : t :=
  mk (job_id r) (task_id r) (backend r) (last_uuid r) (max_date r) (nitems r) (offset r) n.
End JobResult.

(** [JobResult(job_id, task_id, backend, None, None, 0, offset=None, nresumed=0)] *)
Definition JobResult_new (job_id task_id backend : string) : JobResult.t :=
  JobResult.mk job_id task_id backend PNone PNone 0 PNone 0.

(** ** PercevalJob *)

(** The attributes of a [PercevalJob].  [cache] is the directory of the
    [Cache] object, or [None]; the connection [conn] is the [queues]
    component of the world. *)
Module Job.
Record t : Type := mk {
  job_id : string;
  task_id : string;
  backend : string;
  bklass : backend_class;
  qitems : string;
  retries : Z;
  cache : option string;
  result : JobResult.t
}.

Definition set_cache (c : option string) (j : t) : t :=
  mk (job_id j) (task_id j) (backend j) (bklass j) (qitems j) (retries j) c (result j).
Definition set_result (r : JobResult.t) (j : t) : t :=
  mk (job_id j) (task_id j) (backend j) (bklass j) (qitems j) (retries j) (cache j) r.
End Job.

(** ** The world and the state *)

(** What lives outside the job: the dicts allocated so far, the Redis
    lists, the calls made on caches, and the number of calls of [run]
    (a counter of the model, which the code does not keep). *)
Record world : Type := mkWorld {
  heap : gmap loc dict;
  queues : gmap string (list item);
  cache_log : list cache_event;
  run_calls : nat
}.

Record state : Type := mkState {
  self : Job.t;
  outside : world
}.

Definition set_heap (h : gmap loc dict) (w : world) : world :=
  mkWorld h (queues w) (cache_log w) (run_calls w).
Definition set_queues (q : gmap string (list item)) (w : world) : world :=
  mkWorld (heap w) q (cache_log w) (run_calls w).
Definition set_cache_log (l : list cache_event) (w : world) : world :=
  mkWorld (heap w) (queues w) l (run_calls w).
Definition set_run_calls (n : nat) (w : world) : world :=
  mkWorld (heap w) (queues w) (cache_log w) n.

(** ** Computations: state passing with exceptions *)

Definition M (A : Type) : Type := state -> result A * state.

Definition ret {A} (a : A) : M A := fun s => (Ok a, s).
Definition raise {A} (e : exn) : M A := fun s => (Raise e, s).
Definition bind {A B} (m : M A) (k : A -> M B) : M B :=
  fun s =>
    match m s with
    | (Ok a, s') => k a s'
    | (Raise e, s') => (Raise e, s')
    end.
Definition lift {A} (r : result A) : M A := fun s => (r, s).
Definition get : M state := fun s => (Ok s, s).
Definition modify_job (f : Job.t -> Job.t) : M unit :=
  fun s => (Ok tt, mkState (f (self s)) (outside s)).
Definition modify_result (f : JobResult.t -> JobResult.t) : M unit :=
  modify_job (fun j => Job.set_result (f (Job.result j)) j).
Definition modify_world (f : world -> world) : M unit :=
  fun s => (Ok tt, mkState (self s) (f (outside s))).
Definition when (b : bool) (m : M unit) : M unit :=
  if b then m else ret tt.

Declare Scope py_scope.
Delimit Scope py_scope with py.
Notation "x <- m ;; k" := (bind m (fun x => k))
  (at level 100, m at next level, right associativity) : py_scope.
Notation "m ;; k" := (bind m (fun _ => k))
  (at level 100, right associativity) : py_scope.
Local Open Scope py_scope.

(** ** Primitive operations on the world *)

(** [conn.rpush(q, pickle.dumps(x))]: the serialized item is appended to
    the Redis list [q].  The serialization keeps the fields of the item as
    they are at the time of the call; the connection is taken to be up, so
    the call does not raise. *)
Definition rpush (q : string) (x : item) : M unit :=
  modify_world (fun w =>
    set_queues (<[q := (default [] (queues w !! q) ++ [x])%list]> (queues w)) w).

(** [d.copy()]: a new dict with the same entries, at a fresh address.  In
    Python a reference always has a target, so [l] is the address of a
    dict; on an address that is not allocated, which no caller can pass,
    the model raises and allocates nothing. *)
Definition dict_copy (l : loc) : M loc :=
  fun s =>
    let h := heap (outside s) in
    match h !! l with
    | Some d =>
        let l' := fresh (dom h) in
        (Ok l', mkState (self s) (set_heap (<[l' := d]> h) (outside s)))
    | None => (Raise (TypeError "not a dict"), s)
    end.

(** [d[k] = v] on the dict at address [l]. *)
Definition dict_setitem (l : loc) (k : string) (v : pyval) : M unit :=
  modify_world (fun w => set_heap (alter (insert k v) l (heap w)) w).

(** The entries of the dict at address [l]. *)
Definition dict_read (l : loc) : M dict :=
  fun s => (Ok (default ∅ (heap (outside s) !! l)), s).

(** A call on a cache object: it is logged, then raises or not as the
    environment says. *)
Definition cache_call (ev : cache_event)
    (outcome : list cache_event -> option exn) : M unit :=
  fun s =>
    let log := cache_log (outside s) in
    let s' := mkState (self s) (set_cache_log (log ++ [ev])%list (outside s)) in
    match outcome log with
    | Some e => (Raise e, s')
    | None => (Ok tt, s')
    end.

Definition cache_value (c : option string) : pyval :=
  match c with
  | Some dirpath => PCache dirpath
  | None => PNone
  end.

Section Arthur.

Context (E : Env).

(** ** The [metadata] decorator *)

(** [item['arthur_version'] = __version__; item['job_id'] = self.job_id] *)
Definition add_metadata (job_id : string) (x : item) : item :=
  <["job_id" := PStr job_id]> (<["arthur_version" := PStr (version E)]> x).

(** The decorated generator yields the items of [func], each with its
    metadata, and ends as [func] ends.  [self.job_id] is assigned by
    [__init__] only, so it is read once here. *)
Definition metadata {A B : Type} (func : A -> B -> M production)
  : A -> B -> M production :=
  fun a b =>
    p <- func a b;;
    s <- get;;
    ret (add_metadata (Job.job_id (self s)) <$> fst p, snd p).

(** ** Methods of [PercevalJob] *)

(** [PercevalJob.__init__] *)
Definition PercevalJob_init (job_id task_id backend qitems : string)
  : result Job.t :=
  match find_backends E !! backend with
  | Some bklass =>
      Ok (Job.mk job_id task_id backend bklass qitems 0 None
            (JobResult_new job_id task_id backend))
  | None => Raise (NotFoundError backend)
  end.

(** The body of [_execute], before decoration.  It is a generator: an
    exception raised before the first item is raised when the caller
    starts to iterate, so it is the end of an empty production. *)
Definition _execute_undecorated (backend_args : loc) (fetch_from_cache : bool)
  : M production :=
  s <- get;;
  args <- dict_read backend_args;;
  let bklass := Job.bklass (self s) in
  let n := run_calls (outside s) in
  match find_signature_parameters (bk_init_sig bklass) args with
  | Raise e => ret ([], Some e)
  | Ok kinit =>
      match bk_init bklass n kinit with
      | Some e => ret ([], Some e)
      | None =>
          let '(sig, fnc_fetch) :=
            if negb fetch_from_cache
            then (bk_fetch_sig bklass, bk_fetch bklass)
            else (bk_fetch_from_cache_sig bklass, bk_fetch_from_cache bklass) in
          match find_signature_parameters sig args with
          | Raise e => ret ([], Some e)
          | Ok kfetch => ret (fnc_fetch n kinit kfetch)
          end
      end
  end.

Definition _execute : loc -> bool -> M production :=
  metadata _execute_undecorated.

(** The body of the [for] loop of [run], for one item. *)
Definition process_item (x : item) : M unit :=
  s <- get;;
  rpush (Job.qitems (self s)) x;;
  modify_result (fun r => JobResult.set_nitems (JobResult.nitems r + 1) r);;
  uuid <- lift (getitem x "uuid");;
  modify_result (JobResult.set_last_uuid uuid);;
  s <- get;;
  let max_date := JobResult.max_date (Job.result (self s)) in
  newer <- (if negb (truthy max_date) then ret true
            else (updated_on <- lift (getitem x "updated_on");;
                  lift (py_lt max_date updated_on)));;
  when newer
    (updated_on <- lift (getitem x "updated_on");;
     modify_result (JobResult.set_max_date updated_on));;
  when (contains x "offset")
    (offset <- lift (getitem x "offset");;
     modify_result (JobResult.set_offset offset)).

(** The [for] loop of [run] over a production. *)
Fixpoint consume (items : list item) (stop : option exn) : M unit :=
  match items with
  | [] =>
      match stop with
      | None => ret tt
      | Some e => raise e
      end
  | x :: items' => process_item x;; consume items' stop
  end.

(** [PercevalJob.run] *)
Definition run (backend_args : loc) (resume fetch_from_cache : bool) : M unit :=
  modify_world (fun w => set_run_calls (S (run_calls w)) w);;
  args <- dict_copy backend_args;;
  s <- get;;
  dict_setitem args "cache" (cache_value (Job.cache (self s)));;
  (if negb resume
   then modify_job (fun j =>
          Job.set_result
            (JobResult_new (Job.job_id j) (Job.task_id j) (Job.backend j)) j)
   else
     (let r := Job.result (self s) in
      when (truthy (JobResult.max_date r))
        (from_date <- lift (unixtime_to_datetime E (JobResult.max_date r));;
         dict_setitem args "from_date" from_date);;
      when (truthy (JobResult.offset r))
        (dict_setitem args "offset" (JobResult.offset r));;
      modify_result (fun r => JobResult.set_nresumed (JobResult.nresumed r + 1) r)));;
  p <- _execute args fetch_from_cache;;
  consume (fst p) (snd p).

(** [PercevalJob.initialize_cache] *)
Definition initialize_cache (dirpath : string) (backup : bool) : M unit :=
  if String.eqb dirpath ""
  then raise (ValueError "dirpath requieres a value")
  else
    (cache_call (CacheOpened dirpath) (cache_open E dirpath);;
     modify_job (Job.set_cache (Some dirpath));;
     when backup (cache_call (CacheBackup dirpath) (cache_backup E dirpath))).

(** [PercevalJob.recover_cache] *)
Definition recover_cache : M unit :=
  s <- get;;
  match Job.cache (self s) with
  | None => ret tt
  | Some dirpath => cache_call (CacheRecovered dirpath) (cache_recover E dirpath)
  end.

Definition has_caching (j : Job.t) : bool := bk_has_caching (Job.bklass j).
Definition has_resuming (j : Job.t) : bool := bk_has_resuming (Job.bklass j).

(** ** [execute_perceval_job] *)

(** Truth value of the parameter [cache_path]: [None] or a string. *)
Definition path_given (cache_path : option string) : bool :=
  match cache_path with
  | Some dirpath => negb (String.eqb dirpath "")
  | None => false
  end.

(** The handler of [except Exception], up to the test that ends the loop:
    [if cache_path and not fetch_from_cache: job.recover_cache();
    job.cache = None]. *)
Definition rollback (cache_path : option string) (fetch_from_cache : bool)
  : M unit :=
  when (path_given cache_path && negb fetch_from_cache)
    (recover_cache;; modify_job (Job.set_cache None)).

(** The [while run_job] loop.  [fuel] bounds the number of iterations of
    the model; [None] is returned when it runs out.  [failures] and
    [resume] are the local variables of the function. *)
Fixpoint retry_loop (fuel : nat) (backend_args : loc)
    (cache_path : option string) (fetch_from_cache : bool) (max_retries : Z)
    (resume : bool) (failures : Z) (s : state) : option (result unit * state) :=
  match fuel with
  | O => None
  | S fuel' =>
      match run backend_args resume fetch_from_cache s with
      | (Ok _, s1) => Some (Ok tt, s1)
      | (Raise e, s1) =>
          match handler_of e with
          | HAttributeError => Some (Raise e, s1)
          | HUncaught => Some (Raise e, s1)
          | HException =>
              let failures := failures + 1 in
              match rollback cache_path fetch_from_cache s1 with
              | (Raise e', s2) => Some (Raise e', s2)
              | (Ok _, s2) =>
                  if negb (has_resuming (self s2)) || (max_retries <=? failures)
                  then Some (Raise e, s2)
                  else retry_loop fuel' backend_args cache_path fetch_from_cache
                         max_retries true failures s2
              end
          end
      end
  end.

(** The function from the creation of the job to the [while] loop. *)
Definition setup (cache_path : option string) (fetch_from_cache : bool)
  : M unit :=
  s <- get;;
  if negb (has_caching (self s)) && (path_given cache_path || fetch_from_cache)
  then raise (AttributeError "cache attributes set but cache is not supported")
  else
    match cache_path with
    | Some dirpath =>
        when (path_given cache_path)
          (initialize_cache dirpath (negb fetch_from_cache))
    | None => ret tt
    end.

Definition execute_perceval_job (fuel : nat) (backend : string)
    (backend_args : loc) (qitems task_id : string)
    (cache_path : option string) (fetch_from_cache : bool) (max_retries : Z)
    (w : world) : option (result JobResult.t * world) :=
  match PercevalJob_init (rq_job_id E) task_id backend qitems with
  | Raise e => Some (Raise e, w)
  | Ok job =>
      match setup cache_path fetch_from_cache (mkState job w) with
      | (Raise e, s1) => Some (Raise e, outside s1)
      | (Ok _, s1) =>
          match retry_loop fuel backend_args cache_path fetch_from_cache
                  max_retries false 0 s1 with
          | None => None
          | Some (Raise e, s2) => Some (Raise e, outside s2)
          | Some (Ok _, s2) => Some (Ok (Job.result (self s2)), outside s2)
          end
      end
  end.

End Arthur.

(** ** Frames: what a computation leaves unchanged *)

(** [frame D s s']: from [s] to [s'] the job changed at most in its result,
    no run was counted, no cache was called, and the dicts at the
    addresses of [D] are the same. *)
Definition frame (D : gset loc) (s s' : state) : Prop :=
  self s' = Job.set_result (Job.result (self s')) (self s) /\
  run_calls (outside s') = run_calls (outside s) /\
  cache_log (outside s') = cache_log (outside s) /\
  (forall l, l ∈ D -> heap (outside s') !! l = heap (outside s) !! l).

Definition framed (D : gset loc) {A} (m : M A) : Prop :=
  forall s, frame D s (snd (m s)).

(** The part of the state that a run of the items cannot touch: the
    queues other than [q] and the entries of [q] already pushed. *)
Definition pushes (q : string) (s s' : state) (delivered : list item) : Prop :=
  default [] (queues (outside s') !! q)
    = (default [] (queues (outside s) !! q) ++ delivered)%list /\
  (forall q', q' <> q -> queues (outside s') !! q' = queues (outside s) !! q').

(** An item carries the metadata of the job [job_id] at version [v]. *)
Definition tagged (v job_id : string) (x : item) : Prop :=
  x !! "job_id" = Some (PStr job_id) /\ x !! "arthur_version" = Some (PStr v).

(** Two items agree on every field that is not metadata. *)
Definition same_data (x x' : item) : Prop :=
  forall k, k <> "job_id" -> k <> "arthur_version" -> x' !! k = x !! k.

(** [quiet s s']: from [s] to [s'] only the cache of the job and the log of
    cache calls changed. *)
Definition quiet (s s' : state) : Prop :=
  self s' = Job.set_cache (Job.cache (self s')) (self s) /\
  outside s' = set_cache_log (cache_log (outside s')) (outside s).

(** The maximum of a recorded date, if there is one, and of a list of
    integer timestamps. *)
Definition max_with (m : pyval) (t : Z) : pyval :=
  match m with
  | PInt T => PInt (Z.max T t)
  | _ => PInt t
  end.

Definition max_over (m : pyval) (ts : list Z) : pyval := fold_left max_with ts m.

(** An item with an identifier and the integer timestamp [t]. *)
Definition dated (x : item) (t : Z) : Prop :=
  is_Some (x !! "uuid") /\ x !! "updated_on" = Some (PInt t).

(** The number of cache recoveries in a log of cache calls. *)
Definition recoveries (log : list cache_event) : nat :=
  length (List.filter
            (fun ev => match ev with CacheRecovered _ => true | _ => false end) log).

(** A state from which no run that resumes can get to the pipeline: the
    caller's dict is not allocated, or the date recorded is true and its
    conversion raises. *)
Definition stuck (E : Env) (backend_args : loc) (s : state) : Prop :=
  heap (outside s) !! backend_args = None \/
  (truthy (JobResult.max_date (Job.result (self s))) = true /\
   exists e, unixtime_to_datetime E (JobResult.max_date (Job.result (self s)))
             = Raise e).

(** The calls of [run] made by the [while] loop that starts in state [s1]:
    [attempt E ... s1 resume failures s] says that the loop reaches its
    [try] in state [s] with these values of its variables [resume] and
    [failures].  The first attempt is made in [s1]; another one follows an
    attempt whose run raised an exception caught by [except Exception],
    when the rollback has returned and the test that ends the loop is
    false. *)
Inductive attempt (E : Env) (backend_args : loc) (cache_path : option string)
    (ffc : bool) (max_retries : Z) (s1 : state) : bool -> Z -> state -> Prop :=
  | attempt_first : attempt E backend_args cache_path ffc max_retries s1 false 0 s1
  | attempt_retry resume failures s e s' s'' :
      attempt E backend_args cache_path ffc max_retries s1 resume failures s ->
      run E backend_args resume ffc s = (Raise e, s') ->
      handler_of e = HException ->
      rollback E cache_path ffc s' = (Ok tt, s'') ->
      negb (has_resuming (self s'')) || (max_retries <=? failures + 1) = false ->
      attempt E backend_args cache_path ffc max_retries s1 true (failures + 1) s''.

(** [keeps f m]: the observation [f] of the state is the same after [m],
    whether it returns or raises. *)
Definition keeps {X A} (f : state -> X) (m : M A) : Prop :=
  forall s, f (snd (m s)) = f s.

(** [raises_only P m]: every exception raised by [m] satisfies [P]. *)
Definition raises_only (P : exn -> Prop) {A} (m : M A) : Prop :=
  forall s e s', m s = (Raise e, s') -> P e.

(** * Example environments

    Concrete backends, environments and worlds on which the properties
    below are evaluated. *)

Module Examples.

(** A date conversion that accepts integers from year 1 to year 9999. *)
Definition to_datetime (v : pyval) : result pyval :=
  match v with
  | PInt n =>
      if (-62135596800 <=? n) && (n <=? 253402300799)
      then Ok (PDatetime n)
      else Raise (InvalidDateError v)
  | _ => Raise (InvalidDateError v)
  end.

Definition new_item (uuid : string) (updated_on : Z) : item :=
  <["uuid" := PStr uuid]> (<["updated_on" := PInt updated_on]> ∅).

(** A backend whose fetch raises at once, on every call. *)
Definition always_failing (caching resuming : bool) : backend_class :=
  mkBackend caching resuming [] [] []
    (fun _ _ => None)
    (fun _ _ _ => ([], Some (BackendError "boom")))
    (fun _ _ _ => ([], Some (BackendError "boom"))).

(** A backend that yields one item, then raises, on its first two calls,
    and yields one more item on the third. *)
Definition third_time_lucky : backend_class :=
  mkBackend true true
    [mkParam "origin" true; mkParam "cache" false]
    [mkParam "from_date" false; mkParam "offset" false] []
    (fun _ _ => None)
    (fun n _ _ =>
       match n with
       | 1%nat => ([new_item "a" 10], Some (BackendError "timeout"))
       | 2%nat => ([new_item "b" 20], Some (BackendError "timeout"))
       | _ => ([new_item "c" 30], None)
       end)
    (fun _ _ _ => ([], None)).

(** A backend that yields an item dated at the epoch, then an item dated
    five seconds before it. *)
Definition around_epoch : backend_class :=
  mkBackend true true [] [] []
    (fun _ _ => None)
    (fun _ _ _ => ([new_item "a" 0; new_item "b" (-5)], None))
    (fun _ _ _ => ([], None)).

(** A backend that yields one item and is interrupted by the user. *)
Definition interrupted : backend_class :=
  mkBackend true true [] [] []
    (fun _ _ => None)
    (fun _ _ _ => ([new_item "a" 10], Some KeyboardInterrupt))
    (fun _ _ _ => ([], None)).

Definition backends : gmap string backend_class :=
  <["flaky" := always_failing true true]>
    (<["fragile" := always_failing true false]>
       (<["uncached" := always_failing false true]>
          (<["lucky" := third_time_lucky]>
             (<["epoch" := around_epoch]> ∅)))).

(** Caches never fail. *)
Definition env : Env :=
  mkEnv "0.1.0" to_datetime backends "job-1"
    (fun _ _ => None) (fun _ _ => None) (fun _ _ => None).

(** Restoring a cache fails. *)
Definition env_broken_recover : Env :=
  mkEnv "0.1.0" to_datetime backends "job-1"
    (fun _ _ => None) (fun _ _ => None)
    (fun _ _ => Some (BackendError "cache backup not found")).

(** Opening a cache fails. *)
Definition env_broken_open : Env :=
  mkEnv "0.1.0" to_datetime backends "job-1"
    (fun _ _ => Some (BackendError "disk full")) (fun _ _ => None) (fun _ _ => None).

(** The caller's argument bag is the only dict, at address 1. *)
Definition caller_args : dict := <["origin" := PStr "http://example.com"]> ∅.

Definition world0 : world :=
  mkWorld (<[1%positive := caller_args]> ∅) ∅ [] 0.

(** The same world, when the caller gives no [origin]. *)
Definition world_without_origin : world :=
  mkWorld (<[1%positive := ∅]> ∅) ∅ [] 0.

(** A job of [backend] whose result records [max_date] and [offset]. *)
Definition job_with (bklass : backend_class) (max_date offset : pyval) : Job.t :=
  Job.mk "job-1" "task-1" "example" bklass "items" 0 None
    (JobResult.mk "job-1" "task-1" "example" (PStr "a") max_date 1 offset 0).

End Examples.

(** * Properties *)

(** ** Frame lemmas *)

Lemma frame_refl D s : frame D s s.
Proof.
  repeat split; auto. destruct s as [[] ?]; reflexivity.
Qed.

Lemma frame_trans D s1 s2 s3 : frame D s1 s2 -> frame D s2 s3 -> frame D s1 s3.
Proof.
  intros (Hj & Hr & Hc & Hh) (Hj' & Hr' & Hc' & Hh').
  repeat split; try congruence.
  - rewrite Hj', Hj. reflexivity.
  - intros l Hl. rewrite Hh', Hh; auto.
Qed.

Lemma framed_ret D {A} (a : A) : framed D (ret a).
Proof. intros s. apply frame_refl. Qed.

Lemma framed_raise D {A} (e : exn) : framed D (@raise A e).
Proof. intros s. apply frame_refl. Qed.

Lemma framed_lift D {A} (r : result A) : framed D (lift r).
Proof. intros s. apply frame_refl. Qed.

Lemma framed_get D : framed D get.
Proof. intros s. apply frame_refl. Qed.

Lemma framed_bind D {A B} (m : M A) (k : A -> M B) :
  framed D m -> (forall a, framed D (k a)) -> framed D (bind m k).
Proof.
  intros Hm Hk s. unfold bind. specialize (Hm s).
  destruct (m s) as [[a | e] s']; simpl in *; auto.
  eapply frame_trans; [exact Hm | apply Hk].
Qed.

Lemma framed_when D (b : bool) (m : M unit) : framed D m -> framed D (when b m).
Proof. destruct b; simpl; auto using framed_ret. Qed.

Lemma framed_modify_result D f : framed D (modify_result f).
Proof. intros [[] ?]. repeat split; auto. Qed.

Lemma framed_rpush D q x : framed D (rpush q x).
Proof. intros [[] []]. repeat split; auto. Qed.

Lemma framed_dict_read D l : framed D (dict_read l).
Proof. intros s. apply frame_refl. Qed.

Lemma framed_dict_setitem D l k v : l ∉ D -> framed D (dict_setitem l k v).
Proof.
  intros Hl [[] []]. repeat split; auto. simpl.
  intros l' Hl'. apply lookup_alter_ne. set_solver.
Qed.

Create HintDb framed.

#[local] Hint Resolve framed_ret framed_raise framed_lift framed_get
  framed_modify_result framed_rpush framed_dict_read framed_when : framed.

Ltac framed :=
  repeat first
    [ solve [ auto with framed ]
    | apply framed_bind; [ | intros ? ]
    | apply framed_when
    | match goal with |- framed _ (if ?b then _ else _) => destruct b end
    | match goal with |- framed _ (match ?x with _ => _ end) => destruct x end ].

Section FrameLemmas.

Context (E : Env).

Lemma framed_process_item D x : framed D (process_item x).
Proof. unfold process_item. framed. Qed.

Lemma framed_consume D items stop : framed D (consume items stop).
Proof.
  induction items as [| x items IH]; simpl.
  - destruct stop; auto with framed.
  - apply framed_bind; [apply framed_process_item | auto].
Qed.

Lemma framed_execute D l ffc : framed D (_execute E l ffc).
Proof.
  unfold _execute, metadata, _execute_undecorated. framed.
Qed.

End FrameLemmas.

#[local] Hint Resolve framed_process_item framed_consume framed_execute : framed.
(** ** Inversion of computations *)

Lemma bind_inv {A B} (m : M A) (k : A -> M B) s r s' :
  bind m k s = (r, s') ->
  (exists a s1, m s = (Ok a, s1) /\ k a s1 = (r, s')) \/
  (exists e, m s = (Raise e, s') /\ r = Raise e).
Proof.
  unfold bind. destruct (m s) as [[a | e] s1]; intros H.
  - left. eauto.
  - right. inversion H; subst. eauto.
Qed.

Lemma framed_modify_job_result D f :
  (forall j, f j = Job.set_result (Job.result (f j)) j) ->
  framed D (modify_job f).
Proof.
  intros Hf [j w]. repeat split; auto. simpl. apply Hf.
Qed.

Section RunFrame.
Context (E : Env).

(** [run] counts one call, leaves the job unchanged but for its result,
    calls no cache, and leaves every dict allocated before as it was. *)
Lemma run_frame backend_args resume ffc s r s' :
  run E backend_args resume ffc s = (r, s') ->
  self s' = Job.set_result (Job.result (self s')) (self s) /\
  run_calls (outside s') = S (run_calls (outside s)) /\
  cache_log (outside s') = cache_log (outside s) /\
  (forall l, l ∈ dom (heap (outside s)) ->
     heap (outside s') !! l = heap (outside s) !! l) /\
  heap (outside s') !! backend_args = heap (outside s) !! backend_args.
Proof.
  intros H. unfold run in H.
  apply bind_inv in H as [(? & s1 & H1 & H) | (e & H1 & ->)]; [| discriminate H1].
  unfold modify_world in H1. simplify_eq.
  apply bind_inv in H as [(l' & s2 & H2 & H) | (e & H2 & ->)]; unfold dict_copy in H2;
    cbn [outside self heap set_run_calls] in H2;
    destruct (heap (outside s) !! backend_args) as [d |] eqn:Hd; simplify_eq.
  2: { destruct s as [[] []]. repeat split; auto. }
  set (h := heap (outside s)) in *.
  assert (Hfresh : fresh (dom h) ∉ dom h) by apply is_fresh.
  match type of H with
  | ?m ?s2 = _ => assert (Hfr : framed (dom h) m); [ | specialize (Hfr s2) ]
  end.
  { framed; auto using framed_dict_setitem.
    apply framed_modify_job_result. intros []; reflexivity. }
  rewrite H in Hfr. destruct Hfr as (Hj & Hr & Hc & Hh).
  cbn [snd self outside run_calls cache_log heap set_heap set_run_calls] in *.
  assert (Hall : forall l, l ∈ dom h -> heap (outside s') !! l = h !! l).
  { intros l Hl. rewrite Hh by exact Hl. apply lookup_insert_ne. set_solver. }
  repeat split; auto.
  rewrite <- Hd. apply Hall. apply elem_of_dom. eauto.
Qed.

End RunFrame.

(** ** The cache operations of the orchestrator *)

Section CacheLemmas.
Context (E : Env).

Lemma quiet_refl s : quiet s s.
Proof. destruct s as [[] []]. split; reflexivity. Qed.

Lemma cache_call_quiet ev outcome s r s' :
  cache_call ev outcome s = (r, s') -> quiet s s'.
Proof.
  unfold cache_call. intros H.
  destruct (outcome _); simplify_eq; destruct s as [[] []]; split; reflexivity.
Qed.

Lemma recover_cache_quiet s r s' :
  recover_cache E s = (r, s') -> quiet s s'.
Proof.
  unfold recover_cache, bind, get. destruct (Job.cache (self s)).
  - apply cache_call_quiet.
  - intros H. unfold ret in H. simplify_eq. apply quiet_refl.
Qed.

Lemma rollback_quiet cache_path ffc s r s' :
  rollback E cache_path ffc s = (r, s') -> quiet s s'.
Proof.
  unfold rollback, when. destruct (path_given cache_path && negb ffc).
  - intros H. apply bind_inv in H as [(? & s1 & H1 & H) | (e & H1 & ->)].
    + apply recover_cache_quiet in H1. unfold modify_job in H. simplify_eq.
      destruct H1 as [Hj Hw]. split; simpl; [ | exact Hw].
      rewrite Hj. destruct (self s); reflexivity.
    + eapply recover_cache_quiet; eauto.
  - intros H. unfold ret in H. simplify_eq. apply quiet_refl.
Qed.

Lemma initialize_cache_quiet dirpath backup s r s' :
  initialize_cache E dirpath backup s = (r, s') -> quiet s s'.
Proof.
  unfold initialize_cache. destruct (String.eqb dirpath "").
  { intros H. unfold raise in H. simplify_eq. apply quiet_refl. }
  intros H.
  apply bind_inv in H as [(? & s1 & H1 & H) | (e & H1 & ->)];
    apply cache_call_quiet in H1; [ | exact H1].
  apply bind_inv in H as [(? & s2 & H2 & H) | (e & H2 & ->)];
    unfold modify_job in H2; simplify_eq.
  assert (Hq : quiet s (mkState (Job.set_cache (Some dirpath) (self s1)) (outside s1))).
  { destruct H1 as [Hj Hw]. split; simpl; [ | exact Hw].
    rewrite Hj. destruct (self s); reflexivity. }
  destruct backup; simpl in H.
  - apply cache_call_quiet in H. destruct Hq as [Hj Hw], H as [Hj' Hw'].
    simpl in *. split.
    + rewrite Hj'. rewrite Hj. destruct (self s); reflexivity.
    + rewrite Hw'. rewrite Hw. destruct (outside s); reflexivity.
  - unfold ret in H. simplify_eq. exact Hq.
Qed.

Lemma setup_quiet cache_path ffc s r s' :
  setup E cache_path ffc s = (r, s') -> quiet s s'.
Proof.
  unfold setup. intros H.
  apply bind_inv in H as [(s0 & s1 & H1 & H) | (e & H1 & ->)];
    unfold get in H1; simplify_eq.
  destruct (negb (has_caching (self s0)) && (path_given cache_path || ffc)).
  { unfold raise in H. simplify_eq. apply quiet_refl. }
  destruct cache_path as [dirpath |]; [destruct (path_given (Some dirpath)) | ];
    simpl in H; try (unfold ret in H; simplify_eq; apply quiet_refl).
  eapply initialize_cache_quiet; eauto.
Qed.

Lemma quiet_run_calls s s' : quiet s s' -> run_calls (outside s') = run_calls (outside s).
Proof. intros [_ ->]. reflexivity. Qed.

Lemma quiet_heap s s' : quiet s s' -> heap (outside s') = heap (outside s).
Proof. intros [_ ->]. reflexivity. Qed.

Lemma quiet_queues s s' : quiet s s' -> queues (outside s') = queues (outside s).
Proof. intros [_ ->]. reflexivity. Qed.

Lemma quiet_bklass s s' : quiet s s' -> Job.bklass (self s') = Job.bklass (self s).
Proof. intros [-> _]. reflexivity. Qed.

Lemma quiet_result s s' : quiet s s' -> Job.result (self s') = Job.result (self s).
Proof. intros [-> _]. reflexivity. Qed.

End CacheLemmas.

(** ** The retry loop *)

Section LoopLemmas.
Context (E : Env).

Lemma run_bklass backend_args resume ffc s r s' :
  run E backend_args resume ffc s = (r, s') ->
  Job.bklass (self s') = Job.bklass (self s).
Proof.
  intros H. apply run_frame in H as (-> & _). reflexivity.
Qed.

Lemma run_run_calls backend_args resume ffc s r s' :
  run E backend_args resume ffc s = (r, s') ->
  run_calls (outside s') = S (run_calls (outside s)).
Proof.
  intros H. apply run_frame in H as (_ & H & _). exact H.
Qed.

(** An iteration that cannot be followed by another one: the backend does
    not resume, or the failure counted now reaches [max_retries].  The loop
    ends after this call of [run]; when the run raised, the loop raises,
    and what it raises is the exception of the run unless the rollback of
    the cache raised. *)
Lemma retry_loop_last fuel backend_args cache_path ffc max_retries resume failures s :
  has_resuming (self s) = false \/ max_retries <= failures + 1 ->
  exists r s',
    retry_loop E (S fuel) backend_args cache_path ffc max_retries resume failures s
      = Some (r, s') /\
    run_calls (outside s') = S (run_calls (outside s)) /\
    match run E backend_args resume ffc s with
    | (Ok _, s1) => r = Ok tt /\ s' = s1
    | (Raise e, s1) =>
        exists e', r = Raise e' /\
                   (fst (rollback E cache_path ffc s1) = Ok tt -> e' = e)
    end.
Proof.
  intros Hlast. cbn [retry_loop].
  destruct (run E backend_args resume ffc s) as [[[] | e] s1] eqn:Hrun.
  { eexists _, _. split; [reflexivity | ]. split; [ | auto].
    eapply run_run_calls; eauto. }
  pose proof (run_run_calls _ _ _ _ _ _ Hrun) as Hcalls.
  pose proof (run_bklass _ _ _ _ _ _ Hrun) as Hbk.
  destruct (handler_of e) eqn:He.
  1, 3: eexists _, _; split; [reflexivity | ]; split; [exact Hcalls | eauto].
  destruct (rollback E cache_path ffc s1) as [[[] | e'] s2] eqn:Hroll.
  2: { eexists _, _. split; [reflexivity | ].
       pose proof (rollback_quiet _ _ _ _ _ _ Hroll) as Hq.
       rewrite (quiet_run_calls _ _ Hq).
       split; [exact Hcalls | ]. exists e'. split; [reflexivity | discriminate]. }
  pose proof (rollback_quiet _ _ _ _ _ _ Hroll) as Hq.
  assert (Hstop : negb (has_resuming (self s2)) || (max_retries <=? failures + 1) = true).
  { unfold has_resuming in *. rewrite (quiet_bklass _ _ Hq), Hbk.
    destruct Hlast as [-> | Hle]; [reflexivity | ].
    apply orb_true_iff. right. apply Z.leb_le. exact Hle. }
  rewrite Hstop. eexists _, _. split; [reflexivity | ].
  rewrite (quiet_run_calls _ _ Hq). split; [exact Hcalls | eauto].
Qed.

(** The attempts of a loop are made on the backend of its first state. *)
Lemma attempt_bklass backend_args cache_path ffc max_retries s1 resume failures s :
  attempt E backend_args cache_path ffc max_retries s1 resume failures s ->
  Job.bklass (self s) = Job.bklass (self s1).
Proof.
  induction 1 as [| resume failures s e s' s'' _ IH Hrun _ Hroll _]; [reflexivity | ].
  rewrite (quiet_bklass _ _ (rollback_quiet _ _ _ _ _ _ Hroll)).
  rewrite (run_bklass _ _ _ _ _ _ Hrun). exact IH.
Qed.

(** The failures counted at an attempt are the runs made before it. *)
Lemma attempt_run_calls backend_args cache_path ffc max_retries s1 resume failures s :
  attempt E backend_args cache_path ffc max_retries s1 resume failures s ->
  (0 <= failures) /\
  (run_calls (outside s) = run_calls (outside s1) + Z.to_nat failures)%nat.
Proof.
  induction 1 as [| resume failures s e s' s'' _ [IH0 IH] Hrun _ Hroll _];
    [split; [lia | simpl; lia] | ].
  split; [lia | ].
  rewrite (quiet_run_calls _ _ (rollback_quiet _ _ _ _ _ _ Hroll)).
  rewrite (run_run_calls _ _ _ _ _ _ Hrun), IH. lia.
Qed.

(** The loop is deterministic: the number of failures counted determines
    the attempt. *)
Lemma attempt_unique backend_args cache_path ffc max_retries s1 failures
    resume s resume' s' :
  attempt E backend_args cache_path ffc max_retries s1 resume failures s ->
  attempt E backend_args cache_path ffc max_retries s1 resume' failures s' ->
  resume = resume' /\ s = s'.
Proof.
  intros H. revert resume' s'.
  induction H as [| resume failures s e sr se Hatt IH Hrun He Hroll Hstop];
    intros resume' s' H'.
  - inversion H' as [| r0 f0 s0 e0 sr0 se0 Hatt0 _ _ _ _ Hf]; [auto | ].
    apply attempt_run_calls in Hatt0 as [Hge _]. lia.
  - inversion H' as [Hr Hf | r0 f0 s0 e0 sr0 se0 Hatt0 Hrun0 _ Hroll0 _ Hf].
    + apply attempt_run_calls in Hatt as [Hge _]. lia.
    + assert (f0 = failures) by lia. subst f0.
      destruct (IH _ _ Hatt0) as [-> ->].
      rewrite Hrun in Hrun0. injection Hrun0 as <- <-.
      rewrite Hroll in Hroll0. injection Hroll0 as <-. auto.
Qed.

(** When the run of every attempt raises an exception caught by
    [except Exception], the backend resumes and the rollback that follows
    a run returns, the loop makes [max 1 (max_retries - failures)] calls
    of [run] and raises the exception of the run of its last attempt,
    in the state left by the rollback that follows this run. *)
Lemma retry_loop_all_fail backend_args cache_path ffc max_retries s1 :
  has_resuming (self s1) = true ->
  (forall resume failures s,
     attempt E backend_args cache_path ffc max_retries s1 resume failures s ->
     exists e, fst (run E backend_args resume ffc s) = Raise e /\
               handler_of e = HException) ->
  (forall resume failures s,
     attempt E backend_args cache_path ffc max_retries s1 resume failures s ->
     fst (rollback E cache_path ffc (snd (run E backend_args resume ffc s))) = Ok tt) ->
  forall fuel failures resume s,
    attempt E backend_args cache_path ffc max_retries s1 resume failures s ->
    (Z.to_nat (Z.max 1 (max_retries - failures)) <= fuel)%nat ->
    exists e s' resume_last failures_last s_last s_raised,
      retry_loop E fuel backend_args cache_path ffc max_retries resume failures s
        = Some (Raise e, s') /\
      run_calls (outside s')
        = (run_calls (outside s) + Z.to_nat (Z.max 1 (max_retries - failures)))%nat /\
      attempt E backend_args cache_path ffc max_retries s1
        resume_last failures_last s_last /\
      run E backend_args resume_last ffc s_last = (Raise e, s_raised) /\
      rollback E cache_path ffc s_raised = (Ok tt, s') /\
      failures_last + 1 = failures + Z.max 1 (max_retries - failures).
Proof.
  intros Hres Hfail Hroll.
  induction fuel as [| fuel IH]; intros failures resume s Hatt Hfuel; [lia | ].
  cbn [retry_loop].
  destruct (Hfail _ _ _ Hatt) as (e & Hrun & He).
  pose proof (Hroll _ _ _ Hatt) as Hok.
  destruct (run E backend_args resume ffc s) as [r s2] eqn:Hrun'.
  simpl in Hrun, Hok. subst r. rewrite He.
  pose proof (run_run_calls _ _ _ _ _ _ Hrun') as Hcalls.
  pose proof (run_bklass _ _ _ _ _ _ Hrun') as Hbk2.
  destruct (rollback E cache_path ffc s2) as [r s3] eqn:Hroll'.
  simpl in Hok. subst r.
  pose proof (rollback_quiet _ _ _ _ _ _ Hroll') as Hq.
  assert (Hres3 : has_resuming (self s3) = true).
  { unfold has_resuming in *.
    rewrite (quiet_bklass _ _ Hq), Hbk2, (attempt_bklass _ _ _ _ _ _ _ _ Hatt).
    exact Hres. }
  destruct (negb (has_resuming (self s3)) || (max_retries <=? failures + 1)) eqn:Hstop.
  - rewrite Hres3 in Hstop. cbn [negb orb] in Hstop. apply Z.leb_le in Hstop.
    exists e, s3, resume, failures, s, s2. split; [reflexivity | ].
    rewrite (quiet_run_calls _ _ Hq). repeat split; auto; lia.
  - pose proof (attempt_retry _ _ _ _ _ _ _ _ _ _ _ _ Hatt Hrun' He Hroll' Hstop) as Hnext.
    rewrite Hres3 in Hstop. cbn [negb orb] in Hstop. apply Z.leb_gt in Hstop.
    destruct (IH (failures + 1) true s3 Hnext)
      as (e' & s' & rl & fl & sl & sr & Hloop & Hn & Hatt' & Hlast & Hend & Hf); [lia | ].
    exists e', s', rl, fl, sl, sr. split; [exact Hloop | ].
    repeat split; auto.
    + rewrite Hn, (quiet_run_calls _ _ Hq), Hcalls. lia.
    + lia.
Qed.

End LoopLemmas.

(** ** Observations kept by a computation *)

Lemma keeps_ret {X A} (f : state -> X) (a : A) : keeps f (ret a).
Proof. intros s. reflexivity. Qed.

Lemma keeps_raise {X A} (f : state -> X) (e : exn) : keeps f (@raise A e).
Proof. intros s. reflexivity. Qed.

Lemma keeps_lift {X A} (f : state -> X) (r : result A) : keeps f (lift r).
Proof. intros s. reflexivity. Qed.

Lemma keeps_get {X} (f : state -> X) : keeps f get.
Proof. intros s. reflexivity. Qed.

Lemma keeps_dict_read {X} (f : state -> X) l : keeps f (dict_read l).
Proof. intros s. reflexivity. Qed.

Lemma keeps_bind {X A B} (f : state -> X) (m : M A) (k : A -> M B) :
  keeps f m -> (forall a, keeps f (k a)) -> keeps f (bind m k).
Proof.
  intros Hm Hk s. unfold bind. specialize (Hm s).
  destruct (m s) as [[a | e] s1]; simpl in *; [ | exact Hm].
  rewrite Hk. exact Hm.
Qed.

Lemma keeps_when {X} (f : state -> X) (b : bool) (m : M unit) :
  keeps f m -> keeps f (when b m).
Proof. destruct b; simpl; auto using keeps_ret. Qed.

Lemma keeps_modify_world {X} (f : state -> X) g :
  (forall j w, f (mkState j (g w)) = f (mkState j w)) -> keeps f (modify_world g).
Proof. intros H [j w]. apply H. Qed.

Lemma keeps_modify_job {X} (f : state -> X) g :
  (forall j w, f (mkState (g j) w) = f (mkState j w)) -> keeps f (modify_job g).
Proof. intros H [j w]. apply H. Qed.

Lemma keeps_modify_result {X} (f : state -> X) g :
  (forall j w, f (mkState (Job.set_result (g (Job.result j)) j) w) = f (mkState j w)) ->
  keeps f (modify_result g).
Proof. intros H. apply keeps_modify_job. exact H. Qed.

Create HintDb keeps.

#[local] Hint Resolve keeps_ret keeps_raise keeps_lift keeps_get keeps_dict_read : keeps.

Ltac keeps :=
  repeat first
    [ solve [ auto with keeps ]
    | apply keeps_bind; [ | intros ? ]
    | apply keeps_when
    | apply keeps_modify_result; intros [] []; reflexivity
    | apply keeps_modify_job; intros [] []; reflexivity
    | apply keeps_modify_world; intros [] []; reflexivity
    | match goal with |- keeps _ (if ?b then _ else _) => destruct b end
    | match goal with |- keeps _ (match ?x with _ => _ end) => destruct x end ].

(** The pipeline reads the state and changes nothing. *)
Lemma keeps_execute {X} (E : Env) (f : state -> X) l ffc : keeps f (_execute E l ffc).
Proof. unfold _execute, metadata, _execute_undecorated. keeps. Qed.

(** The loop over the items leaves the heap, the cache and the counters of
    the model as they are. *)
Lemma keeps_consume_outside items stop :
  keeps (fun s => (heap (outside s), cache_log (outside s), run_calls (outside s)))
    (consume items stop).
Proof.
  induction items as [| x items IH]; simpl.
  - destruct stop; auto with keeps.
  - apply keeps_bind; [ | auto]. unfold process_item, rpush, dict_setitem. keeps.
Qed.

(** It changes neither the number of resumptions nor the identity stored
    in the result. *)
Lemma keeps_consume_nresumed items stop :
  keeps (fun s => JobResult.nresumed (Job.result (self s))) (consume items stop).
Proof.
  induction items as [| x items IH]; simpl.
  - destruct stop; auto with keeps.
  - apply keeps_bind; [ | auto]. unfold process_item, rpush. keeps.
Qed.

(** ** Resuming a run *)

Section Resume.
Context (E : Env).

(** The dict at the address allocated by [run] when it resumes, and the
    count of resumptions, provided the date conversion does not raise. *)
Lemma run_resume_bag backend_args ffc s d dt r s' :
  heap (outside s) !! backend_args = Some d ->
  (truthy (JobResult.max_date (Job.result (self s))) = true ->
   unixtime_to_datetime E (JobResult.max_date (Job.result (self s))) = Ok dt) ->
  run E backend_args true ffc s = (r, s') ->
  heap (outside s') !! fresh (dom (heap (outside s)))
    = Some ((if truthy (JobResult.offset (Job.result (self s)))
             then <["offset" := JobResult.offset (Job.result (self s))]>
             else id)
            ((if truthy (JobResult.max_date (Job.result (self s)))
              then <["from_date" := dt]>
              else id)
             (<["cache" := cache_value (Job.cache (self s))]> d))) /\
  JobResult.nresumed (Job.result (self s'))
    = JobResult.nresumed (Job.result (self s)) + 1.
Proof.
  intros Hd Hdt H. unfold run in H.
  apply bind_inv in H as [(? & s1 & H1 & H) | (e & H1 & ->)]; [| discriminate H1].
  unfold modify_world in H1. simplify_eq.
  apply bind_inv in H as [(l' & s2 & H2 & H) | (e & H2 & ->)]; unfold dict_copy in H2;
    cbn [outside self heap set_run_calls] in H2; rewrite Hd in H2; simplify_eq.
  set (h := heap (outside s)) in *. set (l' := fresh (dom h)) in *.
  apply bind_inv in H as [(s0 & s3 & H3 & H) | (e & H3 & ->)]; [| discriminate H3].
  unfold get in H3. simplify_eq.
  apply bind_inv in H as [(? & s4 & H4 & H) | (e & H4 & ->)]; [| discriminate H4].
  unfold dict_setitem, modify_world in H4. simplify_eq.
  cbn [negb self outside heap set_heap set_run_calls] in H.
  set (T := JobResult.max_date (Job.result (self s))) in *.
  set (K := JobResult.offset (Job.result (self s))) in *.
  apply bind_inv in H as [(? & s5 & H5 & H) | (e & H5 & ->)].
  2: { destruct (truthy T); [rewrite Hdt in H5 by reflexivity | ];
       destruct (truthy K); discriminate H5. }
  assert (Htail_heap : heap (outside s') = heap (outside s5)).
  { pose proof (keeps_bind (fun s => (heap (outside s), cache_log (outside s), run_calls (outside s)))
                  (_execute E l' ffc) (fun p => consume p.1 p.2)
                  (keeps_execute E _ l' ffc)
                  (fun p => keeps_consume_outside p.1 p.2) s5) as Hk.
    rewrite H in Hk. simpl in Hk. congruence. }
  assert (Htail_n : JobResult.nresumed (Job.result (self s'))
                    = JobResult.nresumed (Job.result (self s5))).
  { pose proof (keeps_bind (fun s => JobResult.nresumed (Job.result (self s)))
                  (_execute E l' ffc) (fun p => consume p.1 p.2)
                  (keeps_execute E _ l' ffc)
                  (fun p => keeps_consume_nresumed p.1 p.2) s5) as Hk.
    rewrite H in Hk. exact Hk. }
  rewrite Htail_heap, Htail_n. clear H Htail_heap Htail_n.
  destruct (truthy T); [rewrite Hdt in H5 by reflexivity | ];
    destruct (truthy K);
    unfold when, bind, lift, ret, dict_setitem, modify_result, modify_job, modify_world in H5;
    simplify_eq; cbn [self outside heap set_heap Job.result Job.set_result
                        JobResult.nresumed JobResult.set_nresumed];
    (split; [ | destruct (self s); reflexivity]);
    repeat rewrite lookup_alter_eq; rewrite lookup_insert_eq; reflexivity.
Qed.
End Resume.

(** ** Exceptions raised by the loop over the items *)

Lemma raises_only_ret P {A} (a : A) : raises_only P (ret a).
Proof. intros s e s' H. discriminate H. Qed.

Lemma raises_only_get P : raises_only P get.
Proof. intros s e s' H. discriminate H. Qed.

Lemma raises_only_modify_job P f : raises_only P (modify_job f).
Proof. intros s e s' H. discriminate H. Qed.

Lemma raises_only_modify_result P f : raises_only P (modify_result f).
Proof. intros s e s' H. discriminate H. Qed.

Lemma raises_only_modify_world P f : raises_only P (modify_world f).
Proof. intros s e s' H. discriminate H. Qed.

Lemma raises_only_lift (P : exn -> Prop) {A} (r : result A) :
  (forall e, r = Raise e -> P e) -> raises_only P (lift r).
Proof. intros Hr s e s' H. unfold lift in H. simplify_eq. auto. Qed.

Lemma raises_only_bind P {A B} (m : M A) (k : A -> M B) :
  raises_only P m -> (forall a, raises_only P (k a)) -> raises_only P (bind m k).
Proof.
  intros Hm Hk s e s' H.
  apply bind_inv in H as [(a & s1 & H1 & H) | (e' & H1 & Heq)].
  - eapply Hk; eauto.
  - simplify_eq. eapply Hm; eauto.
Qed.

Lemma raises_only_when P (b : bool) (m : M unit) :
  raises_only P m -> raises_only P (when b m).
Proof. destruct b; simpl; auto using raises_only_ret. Qed.

Lemma getitem_raises d k e : getitem d k = Raise e -> handler_of e = HException.
Proof. unfold getitem. destruct (d !! k); intros H; simplify_eq. reflexivity. Qed.

Lemma py_lt_raises a b e : py_lt a b = Raise e -> handler_of e = HException.
Proof. destruct a, b; simpl; intros H; simplify_eq; reflexivity. Qed.

(** An exception raised while an item is processed is caught by
    [except Exception]: it is a [KeyError] or a [TypeError]. *)
Lemma process_item_raises x :
  raises_only (fun e => handler_of e = HException) (process_item x).
Proof.
  unfold process_item, rpush.
  repeat first
    [ apply raises_only_bind; [ | intros ? ]
    | apply raises_only_when
    | apply raises_only_get | apply raises_only_ret
    | apply raises_only_modify_result | apply raises_only_modify_world
    | apply raises_only_lift; first [ apply getitem_raises | apply py_lt_raises ]
    | match goal with |- raises_only _ (if ?b then _ else _) => destruct b end ].
Qed.

(** A production that ends with an exception makes the loop raise. *)
Lemma consume_fails items e s :
  handler_of e = HException ->
  exists e', fst (consume items (Some e) s) = Raise e' /\ handler_of e' = HException.
Proof.
  intros He. revert s. induction items as [| x items IH]; intros s; simpl.
  - exists e. split; [reflexivity | exact He].
  - unfold bind. destruct (process_item x s) as [[[] | e'] s1] eqn:Hx.
    + apply IH.
    + exists e'. split; [reflexivity | ]. eapply process_item_raises; eauto.
Qed.

Section RunFails.
Context (E : Env).

(** When the date conversion raises only exceptions caught by
    [except Exception] and the pipeline ends with such an exception in
    every state of the job, [run] raises such an exception. *)
Lemma run_fails backend_args resume ffc s :
  (forall v e, unixtime_to_datetime E v = Raise e -> handler_of e = HException) ->
  (forall l s1, Job.bklass (self s1) = Job.bklass (self s) ->
     exists items e s2, _execute E l ffc s1 = (Ok (items, Some e), s2) /\
                        handler_of e = HException) ->
  exists e, fst (run E backend_args resume ffc s) = Raise e /\ handler_of e = HException.
Proof.
  intros Hdate Hexec.
  destruct (run E backend_args resume ffc s) as [r s'] eqn:H. unfold run in H.
  apply bind_inv in H as [(? & s1 & H1 & H) | (e & H1 & ->)]; [| discriminate H1].
  unfold modify_world in H1. simplify_eq.
  apply bind_inv in H as [(l' & s2 & H2 & H) | (e & H2 & ->)]; unfold dict_copy in H2;
    cbn [outside self heap set_run_calls] in H2;
    destruct (heap (outside s) !! backend_args) as [d |]; simplify_eq.
  2: { eexists. split; reflexivity. }
  apply bind_inv in H as [(s0 & s3 & H3 & H) | (e & H3 & ->)]; [| discriminate H3].
  unfold get in H3. simplify_eq.
  apply bind_inv in H as [(? & s4 & H4 & H) | (e & H4 & ->)]; [| discriminate H4].
  unfold dict_setitem at 1, modify_world in H4. simplify_eq.
  apply bind_inv in H as [(? & s5 & H5 & H) | (e & H5 & ->)].
  2: { exists e. split; [reflexivity | ].
       destruct resume; cbn [negb] in H5; [ | discriminate H5].
       match type of H5 with
       | ?m ?s4 = _ =>
           assert (Hr : raises_only (fun e => handler_of e = HException) m);
           [ | eapply Hr; exact H5 ]
       end.
       apply raises_only_bind; [ | intros ?; apply raises_only_bind; intros ].
       - apply raises_only_when, raises_only_bind;
           [apply raises_only_lift, Hdate | intros; apply raises_only_modify_world].
       - apply raises_only_when, raises_only_modify_world.
       - apply raises_only_modify_result. }
  assert (Hbk : Job.bklass (self s5) = Job.bklass (self s)).
  { match type of H5 with ?m ?s4 = _ => assert (Hfr : framed ∅ m); [ | specialize (Hfr s4) ] end.
    { destruct resume; cbn [negb].
      - framed; apply framed_dict_setitem; set_solver.
      - apply framed_modify_job_result. intros []; reflexivity. }
    rewrite H5 in Hfr. destruct Hfr as (Hj & _). simpl in Hj. rewrite Hj. reflexivity. }
  destruct (Hexec (fresh (dom (heap (outside s)))) s5 Hbk) as (items & e & s6 & Hx & He).
  apply bind_inv in H as [(p & s6' & H6 & H) | (e6 & H6 & ->)]; rewrite Hx in H6; simplify_eq.
  simpl in H.
  match type of H with
  | consume _ _ ?sx = _ => destruct (consume_fails items e sx He) as (e' & Hc & He')
  end.
  rewrite H in Hc. simpl in Hc. subst r. eauto.
Qed.

End RunFails.

(** ** The orchestrator *)

Section Orchestrator.
Context (E : Env).

(** Once the job is created and the cache checks have passed, the
    function is its [while] loop. *)
Lemma execute_perceval_job_loop fuel backend backend_args qitems task_id
    cache_path ffc max_retries w job s1 :
  PercevalJob_init E (rq_job_id E) task_id backend qitems = Ok job ->
  setup E cache_path ffc (mkState job w) = (Ok tt, s1) ->
  execute_perceval_job E fuel backend backend_args qitems task_id
    cache_path ffc max_retries w
  = match retry_loop E fuel backend_args cache_path ffc max_retries false 0 s1 with
    | None => None
    | Some (Raise e, s2) => Some (Raise e, outside s2)
    | Some (Ok _, s2) => Some (Ok (Job.result (self s2)), outside s2)
    end.
Proof.
  intros Hinit Hsetup. unfold execute_perceval_job. rewrite Hinit, Hsetup. reflexivity.
Qed.

Lemma setup_facts cache_path ffc job w s1 :
  setup E cache_path ffc (mkState job w) = (Ok tt, s1) ->
  Job.bklass (self s1) = Job.bklass job /\ run_calls (outside s1) = run_calls w.
Proof.
  intros H. apply setup_quiet in H. split.
  - apply (quiet_bklass _ _ H).
  - apply (quiet_run_calls _ _ H).
Qed.

(** The parameter binder raises [AttributeError] only. *)
Lemma find_signature_parameters_raises sig candidates e :
  find_signature_parameters sig candidates = Raise e ->
  exists msg, e = AttributeError msg.
Proof.
  induction sig as [| p sig IH]; simpl; [discriminate | ].
  destruct (candidates !! p_name p).
  - destruct (find_signature_parameters sig candidates); [discriminate | ].
    intros H. simplify_eq. auto.
  - destruct (p_required p); [ | exact IH].
    intros H. simplify_eq. eauto.
Qed.

(** It succeeds when every parameter without a default is a candidate. *)
Lemma find_signature_parameters_ok sig candidates :
  Forall (fun p => p_required p = true -> is_Some (candidates !! p_name p)) sig ->
  exists exec_params, find_signature_parameters sig candidates = Ok exec_params.
Proof.
  induction 1 as [| p sig Hp _ IH]; simpl; [eauto | ].
  destruct IH as (d & ->).
  destruct (candidates !! p_name p) eqn:Hc; [eauto | ].
  destruct (p_required p); [ | eauto].
  destruct (Hp eq_refl) as [? ?]. congruence.
Qed.

End Orchestrator.

(** ** Facts on the example backends *)

Lemma to_datetime_raises v e :
  Examples.to_datetime v = Raise e -> handler_of e = HException.
Proof.
  destruct v; simpl; try (intros H; simplify_eq; reflexivity).
  destruct (_ && _); intros H; simplify_eq. reflexivity.
Qed.

(** Every run of an always failing backend raises an exception caught by
    [except Exception]. *)
Lemma always_failing_run_fails E caching resuming backend_args resume ffc s :
  unixtime_to_datetime E = Examples.to_datetime ->
  Job.bklass (self s) = Examples.always_failing caching resuming ->
  exists e, fst (run E backend_args resume ffc s) = Raise e /\ handler_of e = HException.
Proof.
  intros HE Hbk. apply run_fails.
  - rewrite HE. apply to_datetime_raises.
  - intros l s1 Hbk1. rewrite Hbk in Hbk1.
    unfold _execute, metadata, _execute_undecorated, bind, get, dict_read, ret.
    rewrite Hbk1. destruct ffc; simpl; eauto 6.
Qed.

(** * The retry policy *)

(** C4. When the backend does not support caching and a cache path or the
    fetch-from-cache flag is given, [execute_perceval_job] raises the
    [AttributeError] "cache attributes set but cache is not supported" and
    leaves the world as it was: [run] is not called, no cache is opened and
    nothing is pushed.  This holds for any fuel, hence before the loop. *)
Theorem cache_unsupported E fuel backend backend_args qitems task_id
    cache_path ffc max_retries w bklass :
  find_backends E !! backend = Some bklass ->
  bk_has_caching bklass = false ->
  path_given cache_path || ffc = true ->
  execute_perceval_job E fuel backend backend_args qitems task_id
    cache_path ffc max_retries w
  = Some (Raise (AttributeError "cache attributes set but cache is not supported"), w).
Proof.
  intros Hfind Hcaching Hreq.
  unfold execute_perceval_job, PercevalJob_init. rewrite Hfind.
  unfold setup, bind, get, has_caching. cbn [self Job.bklass].
  rewrite Hcaching, Hreq. reflexivity.
Qed.

Lemma cache_unsupported_witness :
  execute_perceval_job Examples.env 0 "uncached" 1%positive "items" "task-1"
    (Some "/tmp/cache") false 3 Examples.world0
  = Some (Raise (AttributeError "cache attributes set but cache is not supported"),
          Examples.world0).
Proof.
  apply (cache_unsupported Examples.env 0 "uncached" 1%positive "items" "task-1"
           (Some "/tmp/cache") false 3 Examples.world0
           (Examples.always_failing false true));
    reflexivity.
Defined.

(** C6. When a call of [run] raises an [AttributeError] (the exception of
    a parameter-binding failure), the loop raises this exception at once:
    in whatever iteration it happens ([resume] and [failures] are
    arbitrary), whatever [max_retries] is and whether the backend resumes
    or not.  The state is the one left by that [run]: one call was
    counted, and no cache was recovered. *)
Theorem attribute_error_not_retried E fuel backend_args cache_path ffc
    max_retries resume failures s msg s1 :
  run E backend_args resume ffc s = (Raise (AttributeError msg), s1) ->
  retry_loop E (S fuel) backend_args cache_path ffc max_retries resume failures s
    = Some (Raise (AttributeError msg), s1) /\
  run_calls (outside s1) = S (run_calls (outside s)) /\
  cache_log (outside s1) = cache_log (outside s).
Proof.
  intros Hrun. split.
  - cbn [retry_loop]. rewrite Hrun. reflexivity.
  - apply run_frame in Hrun as (_ & Hcalls & Hlog & _). auto.
Qed.

Lemma attribute_error_not_retried_witness :
  exists s1,
    retry_loop Examples.env 1 1%positive None false 3 false 0
      (mkState (Examples.job_with Examples.third_time_lucky PNone PNone)
         Examples.world_without_origin)
    = Some (Raise (AttributeError "required argument origin not found"), s1) /\
    run_calls (outside s1) = 1%nat.
Proof.
  eexists.
  refine (let H := attribute_error_not_retried Examples.env 0 1%positive None false 3
                     false 0 _ "required argument origin not found" _ _ in
          conj (proj1 H) (proj1 (proj2 H))).
  vm_compute. reflexivity.
Defined.

(** C7, as stated, fails: the backend does not support resuming and its
    run raises "boom", an exception caught by [except Exception]; the
    recovery of the cache raises in its turn, and the exception that
    leaves the function, after one call of [run], is the one of the
    recovery, not the one of the run. *)
Lemma no_resume_recovery_error_raised :
  exists job s1 s2 w',
    PercevalJob_init Examples.env_broken_recover "job-1" "task-1" "fragile" "items" = Ok job /\
    has_resuming job = false /\
    setup Examples.env_broken_recover (Some "/tmp/cache") false
      (mkState job Examples.world0) = (Ok tt, s1) /\
    run Examples.env_broken_recover 1%positive false false s1
      = (Raise (BackendError "boom"), s2) /\
    handler_of (BackendError "boom") = HException /\
    execute_perceval_job Examples.env_broken_recover 1 "fragile" 1%positive "items"
      "task-1" (Some "/tmp/cache") false 3 Examples.world0
    = Some (Raise (BackendError "cache backup not found"), w') /\
    run_calls w' = 1%nat /\
    BackendError "cache backup not found" <> BackendError "boom".
Proof.
  eexists _, _, _, _. split; [reflexivity | ]. split; [reflexivity | ].
  split; [reflexivity | ]. split; [vm_compute; reflexivity | ].
  split; [reflexivity | ]. split; [vm_compute; reflexivity | ].
  split; [reflexivity | discriminate].
Qed.

(** C7, amended.  When the backend does not support resuming and the first
    [run] raises an exception caught by [except Exception], the function
    raises after exactly one call of [run], for any [max_retries], in the
    state left by the rollback of the cache that follows the run: it
    raises the exception of the run when the rollback returns, and the
    exception of the rollback when the rollback raises. *)
Theorem no_resume_single_run E fuel backend backend_args qitems task_id
    cache_path ffc max_retries w job s1 e s2 :
  PercevalJob_init E (rq_job_id E) task_id backend qitems = Ok job ->
  has_resuming job = false ->
  setup E cache_path ffc (mkState job w) = (Ok tt, s1) ->
  run E backend_args false ffc s1 = (Raise e, s2) ->
  handler_of e = HException ->
  exists r s3,
    rollback E cache_path ffc s2 = (r, s3) /\
    execute_perceval_job E (S fuel) backend backend_args qitems task_id
      cache_path ffc max_retries w
    = Some (Raise (match r with Ok _ => e | Raise e' => e' end), outside s3) /\
    run_calls (outside s3) = S (run_calls w).
Proof.
  intros Hinit Hres Hsetup Hrun He.
  destruct (setup_facts E _ _ _ _ _ Hsetup) as [Hbk Hcalls].
  rewrite (execute_perceval_job_loop E _ _ _ _ _ _ _ _ _ _ _ Hinit Hsetup).
  cbn [retry_loop]. rewrite Hrun, He.
  pose proof (run_run_calls E _ _ _ _ _ _ Hrun) as Hn.
  pose proof (run_bklass E _ _ _ _ _ _ Hrun) as Hbk2.
  destruct (rollback E cache_path ffc s2) as [r s3] eqn:Hroll.
  pose proof (rollback_quiet E _ _ _ _ _ Hroll) as Hq.
  exists r, s3. split; [reflexivity | ].
  split; [ | rewrite (quiet_run_calls _ _ Hq); congruence].
  destruct r as [[] | e']; [ | reflexivity].
  assert (Hstop : has_resuming (self s3) = false).
  { unfold has_resuming in *. rewrite (quiet_bklass _ _ Hq), Hbk2, Hbk. exact Hres. }
  rewrite Hstop. reflexivity.
Qed.

Lemma no_resume_single_run_witness :
  exists s3,
    execute_perceval_job Examples.env 1 "fragile" 1%positive "items" "task-1"
      (Some "/tmp/cache") false 3 Examples.world0
    = Some (Raise (BackendError "boom"), outside s3) /\
    run_calls (outside s3) = 1%nat.
Proof.
  destruct (no_resume_single_run Examples.env 0 "fragile" 1%positive "items" "task-1"
              (Some "/tmp/cache") false 3 Examples.world0
              _ _ (BackendError "boom") _ eq_refl eq_refl eq_refl eq_refl eq_refl)
    as (r & s3 & Hroll & Hrun & Hcalls).
  vm_compute in Hroll. injection Hroll as <- <-.
  eexists. split; [exact Hrun | exact Hcalls].
Defined.

(** C10. When [max_retries] is at most 1 (zero and negative values
    included) and the loop is reached, the function ends after exactly one
    call of [run], whatever this run does: the retry budget is compared
    with the number of failures only after a run has failed. *)
Theorem single_run_when_budget_at_most_one E fuel backend backend_args qitems
    task_id cache_path ffc max_retries w job s1 :
  PercevalJob_init E (rq_job_id E) task_id backend qitems = Ok job ->
  setup E cache_path ffc (mkState job w) = (Ok tt, s1) ->
  max_retries <= 1 ->
  exists r w',
    execute_perceval_job E (S fuel) backend backend_args qitems task_id
      cache_path ffc max_retries w = Some (r, w') /\
    run_calls w' = S (run_calls w).
Proof.
  intros Hinit Hsetup Hle.
  destruct (setup_facts E _ _ _ _ _ Hsetup) as [_ Hcalls].
  rewrite (execute_perceval_job_loop E _ _ _ _ _ _ _ _ _ _ _ Hinit Hsetup).
  destruct (retry_loop_last E fuel backend_args cache_path ffc max_retries false 0 s1)
    as (r & s' & Hloop & Hn & _); [right; lia | ].
  rewrite Hloop. destruct r as [[] | e]; eexists _, _; (split; [reflexivity | congruence]).
Qed.

Lemma single_run_when_budget_at_most_one_witness :
  exists r w',
    execute_perceval_job Examples.env 1 "flaky" 1%positive "items" "task-1"
      None false 0 Examples.world0 = Some (r, w') /\
    run_calls w' = 1%nat.
Proof.
  apply (single_run_when_budget_at_most_one Examples.env 0 "flaky" 1%positive
           "items" "task-1" None false 0 Examples.world0 _ _ eq_refl eq_refl).
  lia.
Defined.

(** C1, as stated, fails when [max_retries] is zero: the backend supports
    resuming and its only run raises, yet [run] is called once, not zero
    times. *)
Lemma retry_bound_fails_at_zero :
  has_resuming (Examples.job_with (Examples.always_failing true true) PNone PNone) = true /\
  exists w',
    execute_perceval_job Examples.env 1 "flaky" 1%positive "items" "task-1"
      None false 0 Examples.world0
    = Some (Raise (BackendError "boom"), w') /\
    run_calls w' = 1%nat /\
    Z.of_nat (run_calls w') <> 0.
Proof.
  split; [reflexivity | ].
  eexists. split; [vm_compute; reflexivity | ]. split; [reflexivity | discriminate].
Qed.

(** The two attempts made on the backend that succeeds at its third call,
    when [max_retries] is 2, both raise. *)
Lemma lucky_attempts_fail resume failures s :
  attempt Examples.env 1%positive None false 2
    (mkState (Job.mk "job-1" "task-1" "lucky" Examples.third_time_lucky "items" 0 None
                (JobResult_new "job-1" "task-1" "lucky")) Examples.world0)
    resume failures s ->
  exists e, fst (run Examples.env 1%positive resume false s) = Raise e /\
            handler_of e = HException.
Proof.
  intros Hatt.
  inversion Hatt as [| r0 f0 s0 e0 sr0 se0 Hatt0 Hrun0 He0 Hroll0 Hstop0]; subst.
  - exists (BackendError "timeout"). split; vm_compute; reflexivity.
  - inversion Hatt0 as [| r1 f1 s1 e1 sr1 se1 Hatt1 _ _ _ _]; subst.
    + change (rollback Examples.env None false sr0) with (Ok tt, sr0) in Hroll0.
      injection Hroll0 as <-.
      apply (f_equal snd) in Hrun0. simpl in Hrun0. subst sr0.
      exists (BackendError "timeout"). split; vm_compute; reflexivity.
    + apply attempt_run_calls in Hatt1 as [Hge _].
      apply orb_false_iff in Hstop0 as [_ Hlt]. apply Z.leb_gt in Hlt. lia.
Qed.

(** C1, amended.  When the backend supports resuming, the run of every
    attempt made by the loop raises an exception caught by
    [except Exception], the loop is reached and the rollback of the cache
    that follows a run does not raise, the function calls [run] exactly
    [max 1 max_retries] times (that is [max_retries] times when
    [max_retries] is at least 1) and raises the exception raised by the run
    of its last attempt: the attempt made after [max 1 max_retries - 1]
    failures, whose run and rollback leave the state in which the function
    ends. *)
Theorem retry_bound E fuel backend backend_args qitems task_id cache_path ffc
    max_retries w job s1 :
  PercevalJob_init E (rq_job_id E) task_id backend qitems = Ok job ->
  has_resuming job = true ->
  setup E cache_path ffc (mkState job w) = (Ok tt, s1) ->
  (forall resume failures s,
     attempt E backend_args cache_path ffc max_retries s1 resume failures s ->
     exists e, fst (run E backend_args resume ffc s) = Raise e /\
               handler_of e = HException) ->
  (forall resume failures s,
     attempt E backend_args cache_path ffc max_retries s1 resume failures s ->
     fst (rollback E cache_path ffc (snd (run E backend_args resume ffc s))) = Ok tt) ->
  (Z.to_nat (Z.max 1 max_retries) <= fuel)%nat ->
  exists e resume_last failures_last s_last s_raised s_end,
    execute_perceval_job E fuel backend backend_args qitems task_id
      cache_path ffc max_retries w = Some (Raise e, outside s_end) /\
    run_calls (outside s_end) = (run_calls w + Z.to_nat (Z.max 1 max_retries))%nat /\
    attempt E backend_args cache_path ffc max_retries s1
      resume_last failures_last s_last /\
    failures_last + 1 = Z.max 1 max_retries /\
    run E backend_args resume_last ffc s_last = (Raise e, s_raised) /\
    rollback E cache_path ffc s_raised = (Ok tt, s_end).
Proof.
  intros Hinit Hres Hsetup Hfail Hroll Hfuel.
  destruct (setup_facts E _ _ _ _ _ Hsetup) as [Hbk Hcalls].
  rewrite (execute_perceval_job_loop E _ _ _ _ _ _ _ _ _ _ _ Hinit Hsetup).
  assert (Hres1 : has_resuming (self s1) = true)
    by (unfold has_resuming in *; rewrite Hbk; exact Hres).
  destruct (retry_loop_all_fail E backend_args cache_path ffc max_retries s1
              Hres1 Hfail Hroll fuel 0 false s1 (attempt_first _ _ _ _ _ _))
    as (e & s' & rl & fl & sl & sr & Hloop & Hn & Hatt & Hlast & Hend & Hf).
  { rewrite Z.sub_0_r. exact Hfuel. }
  rewrite Z.sub_0_r in Hn, Hf. rewrite Hloop.
  exists e, rl, fl, sl, sr, s'. repeat split; auto; try congruence; try lia.
Qed.

Lemma retry_bound_witness :
  exists e resume_last failures_last s_last s_raised s_end,
    execute_perceval_job Examples.env 2 "lucky" 1%positive "items" "task-1"
      None false 2 Examples.world0 = Some (Raise e, outside s_end) /\
    run_calls (outside s_end) = 2%nat /\
    attempt Examples.env 1%positive None false 2
      (mkState (Job.mk "job-1" "task-1" "lucky" Examples.third_time_lucky "items" 0 None
                  (JobResult_new "job-1" "task-1" "lucky")) Examples.world0)
      resume_last failures_last s_last /\
    failures_last + 1 = 2 /\
    run Examples.env 1%positive resume_last false s_last = (Raise e, s_raised) /\
    rollback Examples.env None false s_raised = (Ok tt, s_end).
Proof.
  apply (retry_bound Examples.env 2 "lucky" 1%positive "items" "task-1" None false 2
           Examples.world0 _ _ eq_refl eq_refl eq_refl).
  - exact lucky_attempts_fail.
  - intros resume failures s Hatt. reflexivity.
  - vm_compute. lia.
Defined.

(** C5, as stated, fails: the run raises "boom", the recovery of the cache
    raises in its turn, and the function raises the exception of the
    recovery, after a single call of [run]. *)
Lemma recovery_error_replaces_run_error :
  exists job s1 s2 w',
    PercevalJob_init Examples.env_broken_recover "job-1" "task-1" "flaky" "items" = Ok job /\
    setup Examples.env_broken_recover (Some "/tmp/cache") false
      (mkState job Examples.world0) = (Ok tt, s1) /\
    run Examples.env_broken_recover 1%positive false false s1
      = (Raise (BackendError "boom"), s2) /\
    execute_perceval_job Examples.env_broken_recover 3 "flaky" 1%positive "items"
      "task-1" (Some "/tmp/cache") false 3 Examples.world0
    = Some (Raise (BackendError "cache backup not found"), w') /\
    run_calls w' = 1%nat.
Proof.
  eexists _, _, _, _. split; [reflexivity | ]. split; [reflexivity | ].
  split; [vm_compute; reflexivity | ]. split; [vm_compute; reflexivity | reflexivity].
Qed.

(** C5, amended.  When a run raises an exception caught by
    [except Exception], the recovery of the cache is performed (a cache
    path is given, the items are not fetched from the cache, and the job
    has a cache) and the recovery raises, the loop raises the exception of
    the recovery at once, in place of the exception of the run; [run] is
    not called again and the cache of the job is not reset. *)
Theorem recovery_failure_propagates E fuel backend_args cache_path ffc
    max_retries resume failures s e s1 dirpath e' :
  run E backend_args resume ffc s = (Raise e, s1) ->
  handler_of e = HException ->
  path_given cache_path && negb ffc = true ->
  Job.cache (self s1) = Some dirpath ->
  cache_recover E dirpath (cache_log (outside s1)) = Some e' ->
  retry_loop E (S fuel) backend_args cache_path ffc max_retries resume failures s
    = Some (Raise e',
            mkState (self s1)
              (set_cache_log (cache_log (outside s1) ++ [CacheRecovered dirpath])%list
                 (outside s1))) /\
  run_calls (outside s1) = S (run_calls (outside s)).
Proof.
  intros Hrun He Hpath Hcache Hrec. split.
  - cbn [retry_loop]. rewrite Hrun, He.
    unfold rollback, when. rewrite Hpath.
    unfold bind at 1. unfold recover_cache, bind, get.
    rewrite Hcache. unfold cache_call. rewrite Hrec. reflexivity.
  - eapply run_run_calls; eauto.
Qed.

Lemma recovery_failure_propagates_witness :
  exists s s1,
    run Examples.env_broken_recover 1%positive false false s
      = (Raise (BackendError "boom"), s1) /\
    retry_loop Examples.env_broken_recover 1 1%positive (Some "/tmp/cache") false
      3 false 0 s
    = Some (Raise (BackendError "cache backup not found"),
            mkState (self s1)
              (set_cache_log
                 (cache_log (outside s1) ++ [CacheRecovered "/tmp/cache"])%list
                 (outside s1))).
Proof.
  pose (s := snd (setup Examples.env_broken_recover (Some "/tmp/cache") false
                    (mkState (Examples.job_with (Examples.always_failing true true) PNone PNone)
                       Examples.world0))).
  pose (s1 := snd (run Examples.env_broken_recover 1%positive false false s)).
  assert (Hrun : run Examples.env_broken_recover 1%positive false false s
                 = (Raise (BackendError "boom"), s1))
    by (vm_compute; reflexivity).
  exists s, s1. split; [exact Hrun | ].
  apply (recovery_failure_propagates Examples.env_broken_recover 0 1%positive
           (Some "/tmp/cache") false 3 false 0 s (BackendError "boom") s1
           "/tmp/cache" (BackendError "cache backup not found") Hrun);
    reflexivity.
Defined.

(** * The argument bag *)

(** C9. The dict that the caller passes to [run] is the same when [run]
    returns or raises: [run] writes the entries ['cache'], ['from_date']
    and ['offset'] in a copy, allocated at another address. *)
Theorem run_keeps_backend_args E backend_args resume ffc s :
  heap (outside (snd (run E backend_args resume ffc s))) !! backend_args
  = heap (outside s) !! backend_args.
Proof.
  destruct (run E backend_args resume ffc s) as [r s'] eqn:Hrun.
  apply run_frame in Hrun as (_ & _ & _ & _ & H). exact H.
Qed.

(** C3, as stated, fails at zero: a job whose result records the
    timestamp 0 and the offset 0 resumes with an argument bag that has
    neither ['from_date'] nor ['offset']. *)
Lemma resume_skips_zero :
  let s := mkState (Examples.job_with Examples.around_epoch (PInt 0) (PInt 0))
             Examples.world0 in
  let s' := snd (run Examples.env 1%positive true false s) in
  exists bag,
    heap (outside s') !! fresh (dom (heap (outside s))) = Some bag /\
    bag !! "cache" = Some PNone /\
    bag !! "from_date" = None /\
    bag !! "offset" = None.
Proof.
  eexists. split; [vm_compute; reflexivity | ].
  split; [ | split]; vm_compute; reflexivity.
Qed.

(** C3, amended.  When [run] resumes and the date conversion does not
    raise, the argument bag given to the pipeline (the copy of the
    caller's dict) has ['from_date'] set to the date of the recorded
    [max_date] when this value is true (neither [None] nor zero), has
    ['offset'] set to the recorded [offset] when this value is true, and
    [nresumed] is incremented by one. *)
Theorem resume_injection E backend_args ffc s d dt r s' :
  heap (outside s) !! backend_args = Some d ->
  (truthy (JobResult.max_date (Job.result (self s))) = true ->
   unixtime_to_datetime E (JobResult.max_date (Job.result (self s))) = Ok dt) ->
  run E backend_args true ffc s = (r, s') ->
  exists bag,
    heap (outside s') !! fresh (dom (heap (outside s))) = Some bag /\
    (truthy (JobResult.max_date (Job.result (self s))) = true ->
     bag !! "from_date" = Some dt) /\
    (truthy (JobResult.offset (Job.result (self s))) = true ->
     bag !! "offset" = Some (JobResult.offset (Job.result (self s)))) /\
    JobResult.nresumed (Job.result (self s'))
      = JobResult.nresumed (Job.result (self s)) + 1.
Proof.
  intros Hd Hdt Hrun.
  destruct (run_resume_bag E _ _ _ _ _ _ _ Hd Hdt Hrun) as [Hbag Hn].
  eexists. split; [exact Hbag | ]. split; [ | split; [ | exact Hn]].
  - intros ->. destruct (truthy (JobResult.offset _)).
    + rewrite lookup_insert_ne by discriminate. apply lookup_insert_eq.
    + apply lookup_insert_eq.
  - intros ->. apply lookup_insert_eq.
Qed.

Lemma resume_injection_witness :
  let s := mkState (Examples.job_with Examples.around_epoch (PInt 1457113343) (PInt 42))
             Examples.world0 in
  let s' := snd (run Examples.env 1%positive true false s) in
  exists bag,
    heap (outside s') !! fresh (dom (heap (outside s))) = Some bag /\
    bag !! "from_date" = Some (PDatetime 1457113343) /\
    bag !! "offset" = Some (PInt 42) /\
    JobResult.nresumed (Job.result (self s')) = 1.
Proof.
  intros s s'.
  destruct (resume_injection Examples.env 1%positive false s Examples.caller_args
              (PDatetime 1457113343) (fst (run Examples.env 1%positive true false s)) s')
    as (bag & Hbag & Hdate & Hoffset & Hn).
  - reflexivity.
  - intros _. reflexivity.
  - subst s'. destruct (run Examples.env 1%positive true false s). reflexivity.
  - exists bag. split; [exact Hbag | ]. split; [apply Hdate; reflexivity | ].
    split; [apply Hoffset; reflexivity | exact Hn].
Defined.

(** * Items and the output queue *)

Lemma pushes_nil q s s' :
  queues (outside s') = queues (outside s) -> pushes q s s' [].
Proof.
  intros H. split.
  - rewrite H, app_nil_r. reflexivity.
  - intros q' _. rewrite H. reflexivity.
Qed.

Lemma pushes_app q s1 s2 s3 d1 d2 :
  pushes q s1 s2 d1 -> pushes q s2 s3 d2 -> pushes q s1 s3 (d1 ++ d2).
Proof.
  intros [H1 H1'] [H2 H2']. split.
  - rewrite H2, H1, app_assoc. reflexivity.
  - intros q' Hq. rewrite H2', H1'; auto.
Qed.

(** An item is pushed before anything else is done with it, so it is in
    the queue even when the rest of the iteration raises. *)
Lemma process_item_pushes x s r s' :
  process_item x s = (r, s') ->
  pushes (Job.qitems (self s)) s s' [x] /\
  Job.qitems (self s') = Job.qitems (self s).
Proof.
  intros H. unfold process_item in H.
  apply bind_inv in H as [(s0 & s1 & H1 & H) | (e & H1 & ->)]; [| discriminate H1].
  unfold get in H1. simplify_eq.
  apply bind_inv in H as [(? & s2 & H2 & H) | (e & H2 & ->)]; [| discriminate H2].
  unfold rpush, modify_world in H2. simplify_eq.
  match type of H with
  | ?m ?s2 = _ =>
      assert (Hk : keeps (fun s => (queues (outside s), Job.qitems (self s))) m);
      [ | specialize (Hk s2) ]
  end.
  { keeps. }
  rewrite H in Hk. cbn [snd self outside queues set_queues] in Hk.
  injection Hk as Hq Hn. split; [ | exact Hn].
  split.
  - rewrite Hq, lookup_insert_eq. reflexivity.
  - intros q' Hne. rewrite Hq. apply lookup_insert_ne. congruence.
Qed.

(** The loop pushes the items it receives, in their order, up to the one
    at which it stops; all of them when it ends without raising. *)
Lemma consume_pushes items stop s r s' :
  consume items stop s = (r, s') ->
  exists k,
    pushes (Job.qitems (self s)) s s' (take k items) /\
    (r = Ok tt -> take k items = items /\ stop = None).
Proof.
  revert s. induction items as [| x items IH]; intros s H; simpl in H.
  - exists 0%nat. split.
    + apply pushes_nil. destruct stop; unfold raise, ret in H; simplify_eq; reflexivity.
    + intros ->. destruct stop; unfold raise, ret in H; simplify_eq. auto.
  - apply bind_inv in H as [(? & s1 & H1 & H) | (e & H1 & ->)].
    + apply process_item_pushes in H1 as [Hp Hq].
      apply IH in H as (k & Hpush & Hok). rewrite Hq in Hpush.
      exists (S k). split.
      * apply (pushes_app _ _ _ _ [x] (take k items) Hp Hpush).
      * intros Hr. destruct (Hok Hr) as [Heq ->]. simpl. rewrite Heq. auto.
    + apply process_item_pushes in H1 as [Hp _].
      exists 1%nat. split; [exact Hp | discriminate].
Qed.

Lemma add_metadata_tagged E job_id x :
  tagged (version E) job_id (add_metadata E job_id x).
Proof.
  unfold tagged, add_metadata. split.
  - apply lookup_insert_eq.
  - rewrite lookup_insert_ne by discriminate. apply lookup_insert_eq.
Qed.

Lemma add_metadata_same_data E job_id x : same_data x (add_metadata E job_id x).
Proof.
  intros k H1 H2. unfold add_metadata.
  rewrite !lookup_insert_ne by congruence. reflexivity.
Qed.

(** The undecorated pipeline returns its production and leaves the state
    as it is. *)
Lemma execute_undecorated_total l ffc s :
  exists p, _execute_undecorated l ffc s = (Ok p, s).
Proof.
  unfold _execute_undecorated, bind, get, dict_read, ret.
  repeat match goal with
         | |- context [match ?x with _ => _ end] => destruct x
         end; eauto.
Qed.

Lemma keeps_dict_copy {X} (f : state -> X) l :
  (forall j w h, f (mkState j (set_heap h w)) = f (mkState j w)) ->
  keeps f (dict_copy l).
Proof.
  intros Hf [j w]. unfold dict_copy. cbn [outside self].
  destruct (heap w !! l); [apply Hf | reflexivity].
Qed.

(** What [run] does before it starts the pipeline: it counts the call,
    and keeps the queues, the class of the backend, the name of the queue
    and the identifier of the job. *)
Lemma run_reaches_pipeline E backend_args resume ffc s r s' :
  run E backend_args resume ffc s = (r, s') ->
  (exists l s0,
     queues (outside s0) = queues (outside s) /\
     Job.qitems (self s0) = Job.qitems (self s) /\
     Job.job_id (self s0) = Job.job_id (self s) /\
     Job.bklass (self s0) = Job.bklass (self s) /\
     run_calls (outside s0) = S (run_calls (outside s)) /\
     (p <- _execute E l ffc;; consume (fst p) (snd p)) s0 = (r, s')) \/
  (queues (outside s') = queues (outside s) /\ r <> Ok tt).
Proof.
  intros H. unfold run in H.
  set (f := fun s : state =>
              (queues (outside s), Job.qitems (self s), Job.job_id (self s),
               Job.bklass (self s), run_calls (outside s))).
  assert (Hf : forall a b, f a = f b ->
                 queues (outside a) = queues (outside b) /\
                 Job.qitems (self a) = Job.qitems (self b) /\
                 Job.job_id (self a) = Job.job_id (self b) /\
                 Job.bklass (self a) = Job.bklass (self b) /\
                 run_calls (outside a) = run_calls (outside b)).
  { unfold f. intros a b Hab. simplify_eq. auto. }
  apply bind_inv in H as [(? & s1 & Hcount & H) | (e & Hcount & ->)];
    [| discriminate Hcount].
  unfold modify_world in Hcount. injection Hcount as _ <-.
  set (s1 := mkState (self s) (set_run_calls (S (run_calls (outside s))) (outside s))) in *.
  assert (K1 : queues (outside s1) = queues (outside s) /\
               Job.qitems (self s1) = Job.qitems (self s) /\
               Job.job_id (self s1) = Job.job_id (self s) /\
               Job.bklass (self s1) = Job.bklass (self s) /\
               run_calls (outside s1) = S (run_calls (outside s)))
    by (destruct s as [? []]; repeat split).
  clearbody s1.
  pose proof (keeps_dict_copy f backend_args (fun _ _ _ => eq_refl) s1) as K2.
  apply bind_inv in H as [(l' & s2 & Hcopy & H) | (e & Hcopy & ->)];
    rewrite Hcopy in K2; simpl in K2.
  2: { right. split; [ | discriminate]. apply Hf in K2. intuition congruence. }
  apply bind_inv in H as [(s0 & s3 & Hget & H) | (e & Hget & ->)]; [| discriminate Hget].
  unfold get in Hget. injection Hget as <- <-.
  apply bind_inv in H as [(? & s4 & Hset & H) | (e & Hset & ->)]; [| discriminate Hset].
  assert (K4 : f s4 = f s1).
  { unfold dict_setitem, modify_world in Hset. injection Hset as _ <-.
    transitivity (f s2); [reflexivity | congruence]. }
  match type of H with
  | bind ?m _ _ = _ => assert (K5 : keeps f m)
  end.
  { unfold dict_setitem. keeps. }
  specialize (K5 s4).
  apply bind_inv in H as [(? & s5 & Hinj & H) | (e & Hinj & ->)];
    rewrite Hinj in K5; simpl in K5.
  - left. exists l', s5.
    destruct (Hf s5 s1) as (? & ? & ? & ? & ?); [congruence | ].
    intuition congruence.
  - right.
    destruct (Hf s' s1) as (? & ? & ? & ? & ?); [congruence | ].
    split; [intuition congruence | discriminate].
Qed.

(** C8. The items that a call of [run] appends to the queue of the job are
    the items produced by the undecorated pipeline of its backend at this
    call, in the same order and in the same number (a prefix of the
    production, the whole of it when [run] returns), each one with the
    metadata added: its ['job_id'] is the identifier of the job, its
    ['arthur_version'] is the version of the system, and its other fields
    are those of the item produced.  The other queues are not touched. *)
Theorem metadata_tagging E backend_args resume ffc s r s' :
  run E backend_args resume ffc s = (r, s') ->
  exists l s0 raw stop delivered,
    Job.bklass (self s0) = Job.bklass (self s) /\
    run_calls (outside s0) = S (run_calls (outside s)) /\
    _execute_undecorated l ffc s0 = (Ok (raw, stop), s0) /\
    delivered `prefix_of` raw /\
    (r = Ok tt -> delivered = raw /\ stop = None) /\
    pushes (Job.qitems (self s)) s s'
      (add_metadata E (Job.job_id (self s)) <$> delivered) /\
    Forall (tagged (version E) (Job.job_id (self s)))
      (add_metadata E (Job.job_id (self s)) <$> delivered) /\
    Forall2 same_data delivered (add_metadata E (Job.job_id (self s)) <$> delivered).
Proof.
  intros H.
  assert (Htag : forall delivered : list item,
    Forall (tagged (version E) (Job.job_id (self s)))
      (add_metadata E (Job.job_id (self s)) <$> delivered) /\
    Forall2 same_data delivered (add_metadata E (Job.job_id (self s)) <$> delivered)).
  { intros delivered. split.
    - apply Forall_fmap, Forall_true. intros x. apply add_metadata_tagged.
    - apply Forall2_fmap_r, Forall_Forall2_diag, Forall_true.
      intros x. apply add_metadata_same_data. }
  apply run_reaches_pipeline in H
    as [(l & s0 & Hq & Hn & Hid & Hbk & Hcalls & H) | [Hq Hr]].
  - apply bind_inv in H as [(p & s1 & Hexec & H) | (e & Hexec & ->)].
    2: { unfold _execute, metadata in Hexec.
         destruct (execute_undecorated_total l ffc s0) as (p0 & Hp0).
         unfold bind in Hexec. rewrite Hp0 in Hexec. discriminate Hexec. }
    unfold _execute, metadata in Hexec.
    destruct (execute_undecorated_total l ffc s0) as ([raw stop] & Hp0).
    unfold bind, get, ret in Hexec. rewrite Hp0 in Hexec. injection Hexec as <- <-.
    cbn [fst snd] in H.
    apply consume_pushes in H as (k & Hpush & Hok).
    rewrite Hid, <- fmap_take in Hpush, Hok. rewrite Hn in Hpush.
    exists l, s0, raw, stop, (take k raw).
    split; [exact Hbk | ]. split; [exact Hcalls | ]. split; [exact Hp0 | ].
    split; [apply prefix_take | ].
    split; [ | split; [exact (pushes_app _ s s0 s' [] _ (pushes_nil _ _ _ Hq) Hpush) | apply Htag]].
    intros Hr. destruct (Hok Hr) as [Heq ->]. split; [ | reflexivity].
    apply (f_equal length) in Heq. rewrite !length_fmap, length_take in Heq.
    apply take_ge. lia.
  - set (s0 := mkState (self s) (set_run_calls (S (run_calls (outside s))) (outside s))).
    destruct (execute_undecorated_total backend_args ffc s0) as ([raw stop] & Hp).
    exists backend_args, s0, raw, stop, [].
    split; [reflexivity | ]. split; [reflexivity | ]. split; [exact Hp | ].
    split; [apply prefix_nil | ]. split; [intros ?; contradiction | ].
    split; [apply pushes_nil; exact Hq | apply Htag].
Qed.

Lemma metadata_tagging_witness :
  let s := mkState (Examples.job_with Examples.around_epoch PNone PNone)
             Examples.world0 in
  let s' := snd (run Examples.env 1%positive false false s) in
  exists delivered,
    pushes "items" s s' (add_metadata Examples.env "job-1" <$> delivered) /\
    Forall (tagged "0.1.0" "job-1") (add_metadata Examples.env "job-1" <$> delivered).
Proof.
  intros s s'.
  destruct (metadata_tagging Examples.env 1%positive false false s
              (fst (run Examples.env 1%positive false false s)) s')
    as (l & s0 & raw & stop & delivered & _ & _ & _ & _ & _ & Hpush & Htag & _).
  - subst s'. destruct (run Examples.env 1%positive false false s). reflexivity.
  - exists delivered. split; [exact Hpush | exact Htag].
Defined.

(** * The maximum date *)

Lemma contains_getitem (d : dict) k :
  contains d k = true -> exists v, getitem d k = Ok v.
Proof.
  unfold contains, getitem. intros H. apply bool_decide_eq_true in H as [v ->]. eauto.
Qed.

(** The date recorded after an item with an integer timestamp [t]: [t]
    when no date was recorded, when the recorded date is zero, or when it
    is less than [t]; the recorded date otherwise. *)
Lemma process_item_max_date x s uuid t :
  x !! "uuid" = Some uuid ->
  x !! "updated_on" = Some (PInt t) ->
  (JobResult.max_date (Job.result (self s)) = PNone \/
   exists T, JobResult.max_date (Job.result (self s)) = PInt T) ->
  exists s',
    process_item x s = (Ok tt, s') /\
    JobResult.max_date (Job.result (self s'))
    = match JobResult.max_date (Job.result (self s)) with
      | PInt T => if (T =? 0) || (T <? t) then PInt t else PInt T
      | _ => PInt t
      end.
Proof.
  intros Hu Ht Hm. destruct s as [[jid tid bk cls q n c [? ? ? lu md ni off nr]] w].
  cbn [self Job.result JobResult.max_date] in *.
  unfold process_item, bind, get, rpush, modify_world, modify_result, modify_job,
    lift, getitem, ret.
  cbn [self outside Job.qitems Job.result Job.set_result JobResult.max_date
       JobResult.set_nitems JobResult.set_last_uuid fst snd].
  rewrite Hu. cbn [JobResult.max_date JobResult.set_last_uuid JobResult.set_nitems
                   self Job.result Job.set_result].
  rewrite Ht.
  destruct (contains x "offset") eqn:Hoff.
  - destruct (contains_getitem _ _ Hoff) as (v & Hv). unfold getitem in Hv.
    destruct Hm as [-> | [T ->]]; cbn [truthy negb py_lt].
    + unfold when. cbn. rewrite Hv. eexists. split; reflexivity.
    + destruct (T =? 0); cbn [negb orb]; [ | destruct (T <? t)]; unfold when; cbn;
        rewrite ?Ht, Hv; eexists; split; reflexivity.
  - destruct Hm as [-> | [T ->]]; cbn [truthy negb py_lt].
    + unfold when. cbn. eexists. split; reflexivity.
    + destruct (T =? 0); cbn [negb orb]; [ | destruct (T <? t)]; unfold when; cbn;
        rewrite ?Ht; eexists; split; reflexivity.
Qed.

(** X2. When no timestamp is negative, the loop over the items ends
    without raising, with the maximum of the date recorded before and of
    the timestamps of the items. *)
Lemma consume_max_date items ts s :
  Forall2 dated items ts ->
  Forall (fun t => 0 <= t) ts ->
  (JobResult.max_date (Job.result (self s)) = PNone \/
   exists T, JobResult.max_date (Job.result (self s)) = PInt T) ->
  exists s',
    consume items None s = (Ok tt, s') /\
    JobResult.max_date (Job.result (self s'))
    = max_over (JobResult.max_date (Job.result (self s))) ts.
Proof.
  intros Hitems. revert s.
  induction Hitems as [| x t items ts [[uuid Hu] Ht] _ IH]; intros s Hpos Hm.
  - exists s. split; reflexivity.
  - apply Forall_cons in Hpos as [Ht0 Hpos].
    destruct (process_item_max_date x s uuid t Hu Ht Hm) as (s1 & Hx & Hmax).
    assert (Hstep : JobResult.max_date (Job.result (self s1))
                    = max_with (JobResult.max_date (Job.result (self s))) t).
    { rewrite Hmax. destruct Hm as [-> | [T ->]]; [reflexivity | ]. simpl.
      destruct (T =? 0) eqn:H0; simpl.
      - apply Z.eqb_eq in H0. subst T. f_equal. lia.
      - destruct (T <? t) eqn:Hlt; f_equal.
        + apply Z.ltb_lt in Hlt. lia.
        + apply Z.ltb_ge in Hlt. lia. }
    destruct (IH s1 Hpos) as (s' & Hrest & Hfinal).
    { rewrite Hstep. destruct (JobResult.max_date (Job.result (self s))); simpl; eauto. }
    exists s'. split.
    + simpl. unfold bind. rewrite Hx. exact Hrest.
    + rewrite Hfinal, Hstep. reflexivity.
Qed.

(** C2.  The code departs from the claim when a negative timestamp follows
    a recorded date of zero: the test [not self.result.max_date] takes the
    date 0 for a missing one.  A run that starts afresh and receives an
    item dated 0, then an item dated -5, records 0 after the first item
    and ends with the date -5, which is not the maximum and is less than
    the date recorded before. *)
Theorem max_date_decreases_after_epoch :
  let s := mkState (Examples.job_with Examples.around_epoch PNone PNone)
             Examples.world0 in
  JobResult.max_date
    (Job.result (self (snd (consume [Examples.new_item "a" 0] None s)))) = PInt 0 /\
  fst (run Examples.env 1%positive false false s) = Ok tt /\
  JobResult.max_date (Job.result (self (snd (run Examples.env 1%positive false false s))))
  = PInt (-5) /\
  max_over PNone [0; -5] = PInt 0.
Proof.
  repeat split; vm_compute; reflexivity.
Qed.

(** * Further properties of a run *)

Section RunPrelude.
Context (E : Env).

(** What [run] does before the pipeline starts, when the caller's dict is
    allocated: either the pipeline starts in a state where the result is
    the new one (a fresh result, or the previous one with one more
    resumption), or the run resumes and the conversion of the recorded
    date raises, which leaves the job as it was. *)
Lemma run_prelude backend_args resume ffc s d r s' :
  heap (outside s) !! backend_args = Some d ->
  run E backend_args resume ffc s = (r, s') ->
  (exists s0,
     (p <- _execute E (fresh (dom (heap (outside s)))) ffc;;
      consume (fst p) (snd p)) s0 = (r, s') /\
     self s0
     = Job.set_result
         (if resume
          then JobResult.set_nresumed
                 (JobResult.nresumed (Job.result (self s)) + 1) (Job.result (self s))
          else JobResult_new (Job.job_id (self s)) (Job.task_id (self s))
                 (Job.backend (self s)))
         (self s) /\
     queues (outside s0) = queues (outside s) /\
     cache_log (outside s0) = cache_log (outside s) /\
     run_calls (outside s0) = S (run_calls (outside s)) /\
     (forall l, l <> fresh (dom (heap (outside s))) ->
        heap (outside s0) !! l = heap (outside s) !! l) /\
     (resume = false ->
      heap (outside s0) !! fresh (dom (heap (outside s)))
      = Some (<["cache" := cache_value (Job.cache (self s))]> d))) \/
  (resume = true /\
   truthy (JobResult.max_date (Job.result (self s))) = true /\
   (exists e, unixtime_to_datetime E (JobResult.max_date (Job.result (self s)))
                = Raise e /\ r = Raise e) /\
   self s' = self s /\
   queues (outside s') = queues (outside s) /\
   (forall l, l <> fresh (dom (heap (outside s))) ->
      heap (outside s') !! l = heap (outside s) !! l)).
Proof.
  intros Hd H. unfold run in H.
  apply bind_inv in H as [(? & s1 & Hcount & H) | (e & Hcount & ->)];
    [| discriminate Hcount].
  unfold modify_world in Hcount. injection Hcount as _ <-.
  apply bind_inv in H as [(l' & s2 & Hcopy & H) | (e & Hcopy & ->)];
    unfold dict_copy in Hcopy; cbn [outside self heap set_run_calls] in Hcopy;
    rewrite Hd in Hcopy; [ | discriminate Hcopy].
  injection Hcopy as <- <-.
  set (h := heap (outside s)) in *. set (l' := fresh (dom h)) in *.
  apply bind_inv in H as [(s0 & s3 & Hget & H) | (e & Hget & ->)]; [| discriminate Hget].
  unfold get in Hget. injection Hget as <- <-.
  apply bind_inv in H as [(? & s4 & Hset & H) | (e & Hset & ->)]; [| discriminate Hset].
  unfold dict_setitem, modify_world in Hset. injection Hset as _ <-.
  cbn [self outside heap set_heap set_run_calls] in H.
  apply bind_inv in H as [(? & s5 & Hinj & H) | (e & Hinj & ->)].
  - left. exists s5. split; [exact H | ].
    destruct resume; cbn [negb] in Hinj.
    + destruct (truthy (JobResult.max_date (Job.result (self s))));
        [destruct (unixtime_to_datetime E _) | ];
        destruct (truthy (JobResult.offset (Job.result (self s))));
        unfold when, bind, lift, ret, dict_setitem, modify_result, modify_job,
          modify_world in Hinj;
        try discriminate Hinj; injection Hinj as _ <-;
        cbn [self outside heap set_heap queues cache_log run_calls set_run_calls
             Job.result Job.set_result];
        (repeat split; try (destruct s as [[] []]; reflexivity); try discriminate);
        intros l Hl; rewrite ?lookup_alter_ne by congruence;
        apply lookup_insert_ne; congruence.
    + unfold modify_job in Hinj. injection Hinj as _ <-.
      cbn [self outside heap set_heap queues cache_log run_calls set_run_calls].
      repeat split; try (destruct s as [[] []]; reflexivity).
      * intros l Hl. rewrite lookup_alter_ne by congruence.
        apply lookup_insert_ne; congruence.
      * intros _. rewrite lookup_alter_eq, lookup_insert_eq. reflexivity.
  - right. destruct resume; cbn [negb] in Hinj; [ | discriminate Hinj].
    destruct (truthy (JobResult.max_date (Job.result (self s)))) eqn:HT.
    2: { destruct (truthy (JobResult.offset (Job.result (self s))));
         discriminate Hinj. }
    destruct (unixtime_to_datetime E _) as [dt | e'] eqn:Hconv.
    { destruct (truthy (JobResult.offset (Job.result (self s))));
      discriminate Hinj. }
    unfold when, bind, lift in Hinj. injection Hinj as <- <-.
    cbn [self outside heap set_heap queues].
    repeat split; eauto.
    intros l Hl. rewrite lookup_alter_ne by congruence.
    apply lookup_insert_ne; congruence.
Qed.

End RunPrelude.

(** ** The progress recorded for each item *)

(** Whether it returns or raises, an iteration counts its item, and the
    offset changes only if the iteration ends and the item carries one;
    when it ends, the identifier recorded is the one of the item. *)
Lemma process_item_record x s r s1 :
  process_item x s = (r, s1) ->
  JobResult.nitems (Job.result (self s1)) = JobResult.nitems (Job.result (self s)) + 1 /\
  (r = Ok tt -> x !! "uuid" = Some (JobResult.last_uuid (Job.result (self s1)))) /\
  (r = Ok tt ->
   JobResult.offset (Job.result (self s1))
   = default (JobResult.offset (Job.result (self s))) (x !! "offset")) /\
  (x !! "offset" = None ->
   JobResult.offset (Job.result (self s1)) = JobResult.offset (Job.result (self s))).
Proof.
  intros H. unfold process_item in H.
  apply bind_inv in H as [(s0 & s2 & Hget & H) | (e & Hget & ->)]; [| discriminate Hget].
  unfold get in Hget. injection Hget as <- <-.
  apply bind_inv in H as [(? & s3 & Hpush & H) | (e & Hpush & ->)]; [| discriminate Hpush].
  unfold rpush, modify_world in Hpush. injection Hpush as _ <-.
  apply bind_inv in H as [(? & s4 & Hn & H) | (e & Hn & ->)]; [| discriminate Hn].
  unfold modify_result, modify_job in Hn. injection Hn as _ <-.
  cbn [self outside] in H.
  destruct s as [[jid tid bk cls q n c [? ? ? lu md ni off nr]] w].
  cbn [self outside Job.result Job.set_result JobResult.nitems JobResult.set_nitems
       JobResult.offset JobResult.last_uuid] in *.
  unfold bind, lift, getitem, get, modify_result, modify_job, when, ret, contains in H.
  destruct (x !! "uuid") as [uuid |]; destruct (x !! "updated_on") as [u |];
    destruct (x !! "offset") as [v |]; destruct (truthy md) eqn:Hmd; cbn in H;
    rewrite ?Hmd in H; cbn in H;
    try (destruct (py_lt md u) as [[] |]; cbn in H);
    injection H as <- <-; repeat split; auto; discriminate.
Qed.

(** The loop counts every item it pushes, those of an iteration that
    raises included. *)
Lemma consume_count items stop s r s' :
  consume items stop s = (r, s') ->
  exists k,
    pushes (Job.qitems (self s)) s s' (take k items) /\
    JobResult.nitems (Job.result (self s'))
    = JobResult.nitems (Job.result (self s)) + Z.of_nat (length (take k items)) /\
    (r = Ok tt -> take k items = items /\ stop = None).
Proof.
  revert s. induction items as [| x items IH]; intros s H; simpl in H.
  - exists 0%nat. split; [ | split].
    + apply pushes_nil. destruct stop; unfold raise, ret in H; simplify_eq; reflexivity.
    + destruct stop; unfold raise, ret in H; simplify_eq; simpl; lia.
    + intros ->. destruct stop; unfold raise, ret in H; simplify_eq. auto.
  - apply bind_inv in H as [(? & s1 & H1 & H) | (e & H1 & ->)].
    + pose proof (process_item_record _ _ _ _ H1) as (Hn & _).
      apply process_item_pushes in H1 as [Hp Hq].
      apply IH in H as (k & Hpush & Hcount & Hok). rewrite Hq in Hpush.
      exists (S k). split; [ | split].
      * apply (pushes_app _ _ _ _ [x] (take k items) Hp Hpush).
      * rewrite Hcount, Hn. simpl. lia.
      * intros Hr. destruct (Hok Hr) as [Heq ->]. simpl. rewrite Heq. auto.
    + pose proof (process_item_record _ _ _ _ H1) as (Hn & _).
      apply process_item_pushes in H1 as [Hp _].
      exists 1%nat. split; [exact Hp | ]. split; [rewrite Hn; simpl; lia | discriminate].
Qed.

(** X1. The number of items recorded by a run is the number of items it
    has appended to the queue of the job, counted from zero when the run
    starts afresh and from the previous count when it resumes; this holds
    when the run raises as well. *)
Theorem run_item_count E backend_args resume ffc s r s' :
  is_Some (heap (outside s) !! backend_args) ->
  run E backend_args resume ffc s = (r, s') ->
  exists delivered,
    pushes (Job.qitems (self s)) s s' delivered /\
    JobResult.nitems (Job.result (self s'))
    = (if resume then JobResult.nitems (Job.result (self s)) else 0)
      + Z.of_nat (length delivered).
Proof.
  intros [d Hd] H.
  destruct (run_prelude E _ _ _ _ _ _ _ Hd H)
    as [(s0 & Hpipe & Hself & Hq & _) | (-> & _ & _ & Hself & Hq & _)].
  - apply bind_inv in Hpipe as [(p & s1 & Hexec & Hloop) | (e & Hexec & ->)].
    + pose proof (keeps_execute E (fun s => s) (fresh (dom (heap (outside s)))) ffc s0) as Hk.
      rewrite Hexec in Hk. simpl in Hk. subst s1.
      apply consume_count in Hloop as (k & Hpush & Hcount & _).
      exists (take k (fst p)). split.
      * rewrite Hself in Hpush.
        assert (Hqi : Job.qitems (Job.set_result
                        (if resume
                         then JobResult.set_nresumed
                                (JobResult.nresumed (Job.result (self s)) + 1)
                                (Job.result (self s))
                         else JobResult_new (Job.job_id (self s)) (Job.task_id (self s))
                                (Job.backend (self s))) (self s))
                      = Job.qitems (self s)) by (destruct (self s); reflexivity).
        rewrite Hqi in Hpush.
        exact (pushes_app _ s s0 s' [] _ (pushes_nil _ _ _ Hq) Hpush).
      * rewrite Hcount, Hself. destruct resume, (self s) as [? ? ? ? ? ? ? []]; reflexivity.
    + pose proof (keeps_execute E (fun s => s) (fresh (dom (heap (outside s)))) ffc s0) as Hk.
      rewrite Hexec in Hk. simpl in Hk. subst s'.
      exists []. split; [apply pushes_nil; exact Hq | ].
      rewrite Hself. destruct resume, (self s) as [? ? ? ? ? ? ? []]; simpl; lia.
  - exists []. split; [apply pushes_nil; exact Hq | ].
    rewrite Hself. simpl. lia.
Qed.

Lemma run_item_count_witness :
  let s := mkState (Examples.job_with Examples.around_epoch PNone PNone)
             Examples.world0 in
  let s' := snd (run Examples.env 1%positive true false s) in
  exists delivered,
    pushes "items" s s' delivered /\
    JobResult.nitems (Job.result (self s')) = 1 + Z.of_nat (length delivered).
Proof.
  intros s s'.
  apply (run_item_count Examples.env 1%positive true false s
           (fst (run Examples.env 1%positive true false s)) s').
  - eexists. reflexivity.
  - subst s'. destruct (run Examples.env 1%positive true false s). reflexivity.
Defined.

(** X3. When the loop over the items ends without raising, the identifier
    recorded is the ['uuid'] of the last item; it is the one recorded
    before when there is no item. *)
Theorem consume_last_uuid items stop s s' :
  consume items stop s = (Ok tt, s') ->
  match last items with
  | Some x => x !! "uuid" = Some (JobResult.last_uuid (Job.result (self s')))
  | None => JobResult.last_uuid (Job.result (self s'))
            = JobResult.last_uuid (Job.result (self s))
  end.
Proof.
  revert s. induction items as [| x items IH]; intros s H; simpl in H.
  - destruct stop; unfold raise, ret in H; simplify_eq. reflexivity.
  - apply bind_inv in H as [([] & s1 & H1 & H) | (e & H1 & ?)]; [ | discriminate].
    apply process_item_record in H1 as (_ & Hu & _).
    specialize (IH s1 H). destruct items as [| y items].
    + simpl in *. rewrite IH. auto.
    + rewrite last_cons_cons.
      destruct (last (y :: items)) eqn:Hlast; [exact IH | ].
      apply last_None in Hlast. discriminate Hlast.
Qed.

Lemma consume_last_uuid_witness :
  let s := mkState (Examples.job_with Examples.around_epoch PNone PNone)
             Examples.world0 in
  let s' := snd (consume [Examples.new_item "a" 10; Examples.new_item "b" 20] None s) in
  Examples.new_item "b" 20 !! "uuid"
  = Some (JobResult.last_uuid (Job.result (self s'))).
Proof.
  intros s s'.
  apply (consume_last_uuid [Examples.new_item "a" 10; Examples.new_item "b" 20] None s s').
  vm_compute. reflexivity.
Defined.

(** X4. The offset recorded changes only with items that carry an
    ['offset']: when the loop ends without raising, it is the offset of the
    last item that carries one, and the offset recorded before when there
    is none; when no item carries an offset it is left as it was, even if
    the loop raises. *)
Theorem consume_offset items stop s r s' :
  consume items stop s = (r, s') ->
  (r = Ok tt ->
   JobResult.offset (Job.result (self s'))
   = fold_left (fun o x => default o (x !! "offset")) items
       (JobResult.offset (Job.result (self s)))) /\
  (Forall (fun x => x !! "offset" = None) items ->
   JobResult.offset (Job.result (self s')) = JobResult.offset (Job.result (self s))).
Proof.
  revert s. induction items as [| x items IH]; intros s H; simpl in H.
  - destruct stop; unfold raise, ret in H; simplify_eq; auto.
  - apply bind_inv in H as [([] & s1 & H1 & H) | (e & H1 & ->)].
    + apply process_item_record in H1 as (_ & _ & Ho & Hnone).
      destruct (IH s1 H) as [IHok IHnone]. split.
      * intros Hr. simpl. rewrite (IHok Hr), (Ho eq_refl). reflexivity.
      * intros Hall. apply Forall_cons in Hall as [Hx Hall].
        rewrite (IHnone Hall). auto.
    + apply process_item_record in H1 as (_ & _ & _ & Hnone).
      split; [discriminate | ].
      intros Hall. apply Forall_cons in Hall as [Hx _]. auto.
Qed.

Lemma consume_offset_witness :
  let s := mkState (Examples.job_with Examples.around_epoch PNone (PInt 7))
             Examples.world0 in
  let items := [<["offset" := PInt 8]> (Examples.new_item "a" 10);
                Examples.new_item "b" 20] in
  JobResult.offset (Job.result (self (snd (consume items None s)))) = PInt 8 /\
  JobResult.offset
    (Job.result (self (snd (consume [Examples.new_item "b" 20]
                              (Some (BackendError "boom")) s)))) = PInt 7.
Proof.
  intros s items. split.
  - apply (proj1 (consume_offset items None s (Ok tt) (snd (consume items None s))
                    ltac:(vm_compute; reflexivity)) eq_refl).
  - refine (proj2 (consume_offset [Examples.new_item "b" 20] (Some (BackendError "boom")) s
                     (fst (consume [Examples.new_item "b" 20] (Some (BackendError "boom")) s))
                     _ _) _).
    + destruct (consume [Examples.new_item "b" 20] (Some (BackendError "boom")) s).
      reflexivity.
    + repeat constructor.
Defined.

(** ** Starting afresh *)

(** X5. A run that does not resume forgets the previous result: started
    from two jobs that differ in their results only, it gives the same
    outcome and the same final state. *)
Theorem run_fresh_ignores_previous_result E backend_args ffc j r1 r2 w :
  is_Some (heap w !! backend_args) ->
  run E backend_args false ffc (mkState (Job.set_result r1 j) w)
  = run E backend_args false ffc (mkState (Job.set_result r2 j) w).
Proof.
  intros [d Hd]. destruct j as [jid tid bk cls q n c res].
  unfold run, bind, modify_world, dict_copy, get, dict_setitem, modify_job.
  cbn [self outside heap set_run_calls set_heap Job.set_result Job.cache negb
       Job.job_id Job.task_id Job.backend].
  rewrite Hd. reflexivity.
Qed.

Lemma run_fresh_ignores_previous_result_witness :
  run Examples.env 1%positive false false
    (mkState (Examples.job_with Examples.around_epoch (PInt 99) (PInt 5)) Examples.world0)
  = run Examples.env 1%positive false false
      (mkState (Examples.job_with Examples.around_epoch PNone PNone) Examples.world0).
Proof.
  apply (run_fresh_ignores_previous_result Examples.env 1%positive false
           (Examples.job_with Examples.around_epoch PNone PNone)
           (JobResult.mk "job-1" "task-1" "example" (PStr "a") (PInt 99) 1 (PInt 5) 0)
           (JobResult.mk "job-1" "task-1" "example" (PStr "a") PNone 1 PNone 0)
           Examples.world0).
  eexists. reflexivity.
Defined.

(** X6. When a run does not resume, the argument bag given to the pipeline
    is the caller's dict with ['cache'] set to the cache of the job ([None]
    when it has none), whatever the previous result records: no
    ['from_date'] and no ['offset'] is injected.  The run ends as the
    pipeline, [_execute] followed by the loop over its items, ends when
    it is started on the address of the copy in a state where the dict
    at this address, the one that [_execute] reads, is this bag and where
    the result of the job is a new one; the caller's dict is another dict
    and the result counts no resumption.  The bag is left as it is. *)
Theorem run_fresh_bag E backend_args ffc s d r s' :
  heap (outside s) !! backend_args = Some d ->
  run E backend_args false ffc s = (r, s') ->
  exists s0,
    (p <- _execute E (fresh (dom (heap (outside s)))) ffc;;
     consume (fst p) (snd p)) s0 = (r, s') /\
    dict_read (fresh (dom (heap (outside s)))) s0
    = (Ok (<["cache" := cache_value (Job.cache (self s))]> d), s0) /\
    fresh (dom (heap (outside s))) <> backend_args /\
    heap (outside s0) !! backend_args = Some d /\
    self s0
    = Job.set_result
        (JobResult_new (Job.job_id (self s)) (Job.task_id (self s))
           (Job.backend (self s))) (self s) /\
    heap (outside s') !! fresh (dom (heap (outside s)))
    = Some (<["cache" := cache_value (Job.cache (self s))]> d) /\
    JobResult.nresumed (Job.result (self s')) = 0.
Proof.
  intros Hd H.
  destruct (run_prelude E _ _ _ _ _ _ _ Hd H)
    as [(s0 & Hpipe & Hself & _ & _ & _ & Hother & Hbag) | (Hres & _)];
    [ | discriminate Hres].
  specialize (Hbag eq_refl).
  assert (Hne : fresh (dom (heap (outside s))) <> backend_args).
  { intros Heq. apply (is_fresh (dom (heap (outside s)))).
    rewrite Heq. apply elem_of_dom. rewrite Hd. eauto. }
  pose proof (keeps_bind (fun s => (heap (outside s), cache_log (outside s), run_calls (outside s)))
                (_execute E (fresh (dom (heap (outside s)))) ffc) (fun p => consume p.1 p.2)
                (keeps_execute E _ _ ffc)
                (fun p => keeps_consume_outside p.1 p.2) s0) as Hk.
  pose proof (keeps_bind (fun s => JobResult.nresumed (Job.result (self s)))
                (_execute E (fresh (dom (heap (outside s)))) ffc) (fun p => consume p.1 p.2)
                (keeps_execute E _ _ ffc)
                (fun p => keeps_consume_nresumed p.1 p.2) s0) as Hn.
  rewrite Hpipe in Hk, Hn. simpl in Hk, Hn.
  exists s0. split; [exact Hpipe | ].
  split; [unfold dict_read; rewrite Hbag; reflexivity | ].
  split; [exact Hne | ].
  split; [rewrite Hother by auto; exact Hd | ].
  split; [exact Hself | ]. split.
  - injection Hk as -> _ _. exact Hbag.
  - rewrite Hn, Hself. destruct (self s). reflexivity.
Qed.

Lemma run_fresh_bag_witness :
  let s := mkState (Examples.job_with Examples.around_epoch (PInt 99) (PInt 5))
             Examples.world0 in
  let r := fst (run Examples.env 1%positive false false s) in
  let s' := snd (run Examples.env 1%positive false false s) in
  exists s0,
    (p <- _execute Examples.env (fresh (dom (heap (outside s)))) false;;
     consume (fst p) (snd p)) s0 = (r, s') /\
    dict_read (fresh (dom (heap (outside s)))) s0
    = (Ok (<["cache" := PNone]> Examples.caller_args), s0) /\
    fresh (dom (heap (outside s))) <> 1%positive /\
    heap (outside s0) !! 1%positive = Some Examples.caller_args /\
    self s0
    = Job.set_result (JobResult_new "job-1" "task-1" "example") (self s) /\
    heap (outside s') !! fresh (dom (heap (outside s)))
    = Some (<["cache" := PNone]> Examples.caller_args) /\
    JobResult.nresumed (Job.result (self s')) = 0.
Proof.
  intros s r s'.
  apply (run_fresh_bag Examples.env 1%positive false s Examples.caller_args r s').
  - reflexivity.
  - subst r s'. destruct (run Examples.env 1%positive false false s). reflexivity.
Defined.

(** ** Items that lack a field *)

(** X7. An item without ['uuid'] makes the loop raise [KeyError] at this
    item, after the item has been pushed and counted: the item is in the
    queue, the identifier, the date and the offset recorded are left as
    they were, and the items that follow are not consumed. *)
Theorem item_without_uuid x items stop s :
  x !! "uuid" = None ->
  exists s',
    consume (x :: items) stop s = (Raise (KeyError "uuid"), s') /\
    pushes (Job.qitems (self s)) s s' [x] /\
    Job.result (self s')
    = JobResult.set_nitems (JobResult.nitems (Job.result (self s)) + 1)
        (Job.result (self s)).
Proof.
  intros Hu. eexists. split; [ | split].
  - simpl. unfold bind at 1. unfold process_item, bind, get, rpush, modify_world,
      modify_result, modify_job, lift, getitem. rewrite Hu. reflexivity.
  - split; cbn [self outside queues set_queues].
    + rewrite lookup_insert_eq. reflexivity.
    + intros q' Hq. apply lookup_insert_ne. congruence.
  - destruct s as [[] ?]. reflexivity.
Qed.

Lemma item_without_uuid_witness :
  let s := mkState (Examples.job_with Examples.around_epoch PNone PNone)
             Examples.world0 in
  exists s',
    consume [<["updated_on" := PInt 3]> ∅; Examples.new_item "b" 20] None s
    = (Raise (KeyError "uuid"), s') /\
    pushes "items" s s' [<["updated_on" := PInt 3]> ∅] /\
    Job.result (self s')
    = JobResult.set_nitems (JobResult.nitems (Job.result (self s)) + 1)
        (Job.result (self s)).
Proof.
  intros s.
  apply (item_without_uuid (<["updated_on" := PInt 3]> ∅) [Examples.new_item "b" 20] None s).
  reflexivity.
Defined.

(** * Further properties of the cache methods *)

(** X8. With a directory that is not empty, and when neither the opening
    of the cache nor its backup raises, [initialize_cache] returns with the
    cache of the job set to this directory; the cache was opened, and then
    backed up if and only if [backup] is set. *)
Theorem initialize_cache_outcome E dirpath backup s :
  dirpath <> "" ->
  cache_open E dirpath (cache_log (outside s)) = None ->
  (backup = true ->
   cache_backup E dirpath (cache_log (outside s) ++ [CacheOpened dirpath])%list = None) ->
  initialize_cache E dirpath backup s
  = (Ok tt,
     mkState (Job.set_cache (Some dirpath) (self s))
       (set_cache_log
          (cache_log (outside s) ++ CacheOpened dirpath
             :: (if backup then [CacheBackup dirpath] else []))%list
          (outside s))).
Proof.
  intros Hne Hopen Hbackup. unfold initialize_cache.
  destruct (String.eqb dirpath "") eqn:Heq; [apply String.eqb_eq in Heq; contradiction | ].
  unfold bind, cache_call, modify_job, when. rewrite Hopen.
  destruct backup.
  - destruct s as [j [h q log n]]. cbn in *. rewrite (Hbackup eq_refl).
    rewrite <- app_assoc. reflexivity.
  - destruct s as [? []]. reflexivity.
Qed.

Lemma initialize_cache_outcome_witness :
  let s := mkState (Examples.job_with Examples.around_epoch PNone PNone)
             Examples.world0 in
  initialize_cache Examples.env "/tmp/cache" true s
  = (Ok tt,
     mkState (Job.set_cache (Some "/tmp/cache") (self s))
       (set_cache_log [CacheOpened "/tmp/cache"; CacheBackup "/tmp/cache"] (outside s))).
Proof.
  intros s.
  apply (initialize_cache_outcome Examples.env "/tmp/cache" true s).
  - discriminate.
  - reflexivity.
  - intros _. reflexivity.
Defined.

(** X9. The function raises before its loop for three reasons only: the
    cache is requested and not supported, the opening of the cache raises,
    or its backup raises.  The [ValueError] of [initialize_cache] on an
    empty directory is never raised there, because the method is called
    under [if cache_path:]. *)
Theorem setup_errors E cache_path ffc s e s' :
  setup E cache_path ffc s = (Raise e, s') ->
  (e = AttributeError "cache attributes set but cache is not supported" /\
   has_caching (self s) = false /\ s' = s) \/
  (exists dirpath,
     cache_path = Some dirpath /\ dirpath <> "" /\
     (cache_open E dirpath (cache_log (outside s)) = Some e \/
      (ffc = false /\
       cache_backup E dirpath (cache_log (outside s) ++ [CacheOpened dirpath])%list
       = Some e))).
Proof.
  unfold setup, bind, get. intros H.
  destruct (has_caching (self s)) eqn:Hc; cbn [negb andb] in H.
  2: { destruct (path_given cache_path || ffc) eqn:Hreq.
       - unfold raise in H. injection H as <- <-. auto.
       - apply orb_false_iff in Hreq as [Hp ->].
         destruct cache_path as [dirpath |]; [ | discriminate H].
         rewrite Hp in H. discriminate H. }
  destruct cache_path as [dirpath |]; [ | discriminate H].
  destruct (path_given (Some dirpath)) eqn:Hp; [ | discriminate H].
  right. exists dirpath. split; [reflexivity | ].
  cbn [path_given] in Hp. cbn [when] in H. unfold initialize_cache in H.
  destruct (String.eqb dirpath "") eqn:Heq; [discriminate Hp | ].
  split; [intros ->; discriminate Heq | ].
  unfold bind, cache_call, modify_job, when in H.
  destruct (cache_open E dirpath (cache_log (outside s))) as [e0 |] eqn:Hopen.
  { injection H as <- _. auto. }
  cbn [self outside cache_log set_cache_log] in H.
  destruct ffc; cbn [negb] in H; [discriminate H | ].
  destruct (cache_backup E dirpath _) as [e0 |] eqn:Hb; [ | discriminate H].
  injection H as <- _. auto.
Qed.

Lemma setup_errors_witness :
  exists dirpath,
    Some "/tmp/cache" = Some dirpath /\ dirpath <> "" /\
    (cache_open Examples.env_broken_open dirpath [] = Some (BackendError "disk full") \/
     (false = false /\
      cache_backup Examples.env_broken_open dirpath [CacheOpened dirpath]
      = Some (BackendError "disk full"))).
Proof.
  pose (s := mkState (Examples.job_with Examples.around_epoch PNone PNone)
               Examples.world0).
  destruct (setup_errors Examples.env_broken_open (Some "/tmp/cache") false s
              (BackendError "disk full")
              (snd (setup Examples.env_broken_open (Some "/tmp/cache") false s)))
    as [(Heq & _) | H].
  - reflexivity.
  - discriminate Heq.
  - exact H.
Defined.

(** * Further properties of the orchestrator *)

Section LoopRelations.
Context (E : Env).

(** A relation between states that is reflexive and transitive and that
    holds across every run and every rollback holds across the loop. *)
Lemma retry_loop_rel (R : state -> state -> Prop) backend_args cache_path ffc max_retries :
  (forall s, R s s) ->
  (forall s1 s2 s3, R s1 s2 -> R s2 s3 -> R s1 s3) ->
  (forall resume s r s', run E backend_args resume ffc s = (r, s') -> R s s') ->
  (forall s r s', rollback E cache_path ffc s = (r, s') -> R s s') ->
  forall fuel resume failures s r s',
    retry_loop E fuel backend_args cache_path ffc max_retries resume failures s
      = Some (r, s') ->
    R s s'.
Proof.
  intros Hrefl Htrans Hrun Hroll.
  induction fuel as [| fuel IH]; intros resume failures s r s' H; [discriminate H | ].
  cbn [retry_loop] in H.
  destruct (run E backend_args resume ffc s) as [[[] | e] s1] eqn:Hr;
    pose proof (Hrun _ _ _ _ Hr) as R1.
  { injection H as _ <-. exact R1. }
  destruct (handler_of e); try (injection H as _ <-; exact R1).
  destruct (rollback E cache_path ffc s1) as [[[] | e'] s2] eqn:Hb;
    pose proof (Hroll _ _ _ Hb) as R2.
  2: { injection H as _ <-. eauto. }
  destruct (negb (has_resuming (self s2)) || (max_retries <=? failures + 1)).
  - injection H as _ <-. eauto.
  - apply IH in H. eauto.
Qed.

(** The three ways in which the function ends. *)
Lemma execute_perceval_job_inv fuel backend backend_args qitems task_id
    cache_path ffc max_retries w r w' :
  execute_perceval_job E fuel backend backend_args qitems task_id
    cache_path ffc max_retries w = Some (r, w') ->
  (exists e, PercevalJob_init E (rq_job_id E) task_id backend qitems = Raise e /\
             r = Raise e /\ w' = w) \/
  (exists job e s1,
     PercevalJob_init E (rq_job_id E) task_id backend qitems = Ok job /\
     setup E cache_path ffc (mkState job w) = (Raise e, s1) /\
     r = Raise e /\ w' = outside s1) \/
  (exists job s1 rl s2,
     PercevalJob_init E (rq_job_id E) task_id backend qitems = Ok job /\
     setup E cache_path ffc (mkState job w) = (Ok tt, s1) /\
     retry_loop E fuel backend_args cache_path ffc max_retries false 0 s1
       = Some (rl, s2) /\
     w' = outside s2 /\
     r = match rl with
         | Ok _ => Ok (Job.result (self s2))
         | Raise e => Raise e
         end).
Proof.
  unfold execute_perceval_job. intros H.
  destruct (PercevalJob_init E (rq_job_id E) task_id backend qitems) as [job | e].
  2: { injection H as <- <-. left. eauto. }
  destruct (setup E cache_path ffc (mkState job w)) as [[[] | e] s1] eqn:Hs.
  2: { injection H as <- <-. right. left. eauto 8. }
  destruct (retry_loop E fuel backend_args cache_path ffc max_retries false 0 s1)
    as [[[[] | e] s2] |] eqn:Hl; [ | | discriminate H];
    injection H as <- <-; right; right; eauto 10.
Qed.

(** More fuel does not change the outcome of the loop. *)
Lemma retry_loop_fuel_mono backend_args cache_path ffc max_retries fuel fuel'
    resume failures s x :
  retry_loop E fuel backend_args cache_path ffc max_retries resume failures s = Some x ->
  (fuel <= fuel')%nat ->
  retry_loop E fuel' backend_args cache_path ffc max_retries resume failures s = Some x.
Proof.
  revert fuel' resume failures s.
  induction fuel as [| fuel IH]; intros fuel' resume failures s H Hle; [discriminate H | ].
  destruct fuel' as [| fuel']; [lia | ].
  cbn [retry_loop] in *.
  destruct (run E backend_args resume ffc s) as [[[] | e] s1]; [exact H | ].
  destruct (handler_of e); try exact H.
  destruct (rollback E cache_path ffc s1) as [[[] | e'] s2]; [ | exact H].
  destruct (negb (has_resuming (self s2)) || (max_retries <=? failures + 1)); [exact H | ].
  apply IH; [exact H | lia].
Qed.

(** With fuel for [max 1 (max_retries - failures)] iterations the loop
    ends, after at least one and at most that many calls of [run]. *)
Lemma retry_loop_terminates backend_args cache_path ffc max_retries :
  forall fuel failures resume s,
    (Z.to_nat (Z.max 1 (max_retries - failures)) <= fuel)%nat ->
    exists r s',
      retry_loop E fuel backend_args cache_path ffc max_retries resume failures s
        = Some (r, s') /\
      (run_calls (outside s) < run_calls (outside s'))%nat /\
      (run_calls (outside s')
       <= run_calls (outside s) + Z.to_nat (Z.max 1 (max_retries - failures)))%nat.
Proof.
  induction fuel as [| fuel IH]; intros failures resume s Hfuel; [lia | ].
  cbn [retry_loop].
  destruct (run E backend_args resume ffc s) as [[[] | e] s1] eqn:Hrun;
    pose proof (run_run_calls _ _ _ _ _ _ _ Hrun) as Hcalls.
  { eexists _, _. split; [reflexivity | ]. lia. }
  destruct (handler_of e); try (eexists _, _; split; [reflexivity | lia]).
  destruct (rollback E cache_path ffc s1) as [[[] | e'] s2] eqn:Hroll;
    pose proof (quiet_run_calls _ _ (rollback_quiet _ _ _ _ _ _ Hroll)) as Hq.
  2: { eexists _, _. split; [reflexivity | lia]. }
  destruct (negb (has_resuming (self s2)) || (max_retries <=? failures + 1)) eqn:Hstop.
  { eexists _, _. split; [reflexivity | lia]. }
  apply orb_false_iff in Hstop as [_ Hle]. apply Z.leb_gt in Hle.
  destruct (IH (failures + 1) true s2) as (r & s' & Hloop & Hlo & Hhi); [lia | ].
  exists r, s'. split; [exact Hloop | ]. lia.
Qed.

End LoopRelations.

(** X10. The function always ends: with fuel for [max 1 max_retries]
    iterations it returns or raises, for any backend, after at most
    [max 1 max_retries] calls of [run]; more fuel gives the same outcome. *)
Theorem execute_perceval_job_terminates E fuel backend backend_args qitems task_id
    cache_path ffc max_retries w :
  (Z.to_nat (Z.max 1 max_retries) <= fuel)%nat ->
  exists r w',
    execute_perceval_job E fuel backend backend_args qitems task_id
      cache_path ffc max_retries w = Some (r, w') /\
    execute_perceval_job E (Z.to_nat (Z.max 1 max_retries)) backend backend_args
      qitems task_id cache_path ffc max_retries w = Some (r, w') /\
    (run_calls w <= run_calls w' <= run_calls w + Z.to_nat (Z.max 1 max_retries))%nat.
Proof.
  intros Hfuel. unfold execute_perceval_job.
  destruct (PercevalJob_init E (rq_job_id E) task_id backend qitems) as [job | e].
  2: { eexists _, _. split; [reflexivity | ]. split; [reflexivity | lia]. }
  destruct (setup E cache_path ffc (mkState job w)) as [[[] | e] s1] eqn:Hs;
    pose proof (quiet_run_calls _ _ (setup_quiet _ _ _ _ _ _ Hs)) as Hq;
    cbn [outside] in Hq.
  2: { eexists _, _. split; [reflexivity | ]. split; [reflexivity | lia]. }
  destruct (retry_loop_terminates E backend_args cache_path ffc max_retries
              (Z.to_nat (Z.max 1 max_retries)) 0 false s1)
    as (r & s' & Hloop & Hlo & Hhi); [rewrite Z.sub_0_r; lia | ].
  rewrite Z.sub_0_r in Hhi.
  rewrite (retry_loop_fuel_mono E _ _ _ _ _ fuel _ _ _ _ Hloop Hfuel), Hloop.
  destruct r as [[] | e]; eexists _, _; (split; [reflexivity | ]);
    (split; [reflexivity | ]); cbn [outside]; lia.
Qed.

Lemma execute_perceval_job_terminates_witness :
  exists r w',
    execute_perceval_job Examples.env 10 "lucky" 1%positive "items" "task-1"
      None false 5 Examples.world0 = Some (r, w') /\
    execute_perceval_job Examples.env 5 "lucky" 1%positive "items" "task-1"
      None false 5 Examples.world0 = Some (r, w') /\
    (run_calls Examples.world0 <= run_calls w' <= run_calls Examples.world0 + 5)%nat.
Proof.
  apply (execute_perceval_job_terminates Examples.env 10 "lucky" 1%positive "items"
           "task-1" None false 5 Examples.world0).
  vm_compute. lia.
Defined.

(** X11. The function leaves the dict of the caller as it was, however
    many times [run] is called and however it ends. *)
Theorem execute_perceval_job_keeps_backend_args E fuel backend backend_args qitems
    task_id cache_path ffc max_retries w r w' :
  execute_perceval_job E fuel backend backend_args qitems task_id
    cache_path ffc max_retries w = Some (r, w') ->
  heap w' !! backend_args = heap w !! backend_args.
Proof.
  intros H.
  apply execute_perceval_job_inv in H
    as [(e & _ & _ & ->) | [(job & e & s1 & _ & Hs & _ & ->)
                           | (job & s1 & rl & s2 & _ & Hs & Hl & -> & _)]].
  - reflexivity.
  - rewrite (quiet_heap _ _ (setup_quiet _ _ _ _ _ _ Hs)). reflexivity.
  - apply (retry_loop_rel E
             (fun s s' => heap (outside s') !! backend_args
                          = heap (outside s) !! backend_args)) in Hl.
    + rewrite Hl, (quiet_heap _ _ (setup_quiet _ _ _ _ _ _ Hs)). reflexivity.
    + reflexivity.
    + intros s3 s4 s5 H1 H2. congruence.
    + intros resume s3 r3 s4 Hr. apply run_frame in Hr as (_ & _ & _ & _ & Hr). exact Hr.
    + intros s3 r3 s4 Hb. rewrite (quiet_heap _ _ (rollback_quiet _ _ _ _ _ _ Hb)).
      reflexivity.
Qed.

Lemma execute_perceval_job_keeps_backend_args_witness :
  exists r w',
    execute_perceval_job Examples.env 3 "lucky" 1%positive "items" "task-1"
      (Some "/tmp/cache") false 3 Examples.world0 = Some (r, w') /\
    heap w' !! 1%positive = Some Examples.caller_args.
Proof.
  destruct (execute_perceval_job Examples.env 3 "lucky" 1%positive "items" "task-1"
              (Some "/tmp/cache") false 3 Examples.world0) as [[r w'] |] eqn:H.
  - exists r, w'. split; [reflexivity | ].
    apply (execute_perceval_job_keeps_backend_args Examples.env 3 "lucky" 1%positive
             "items" "task-1" (Some "/tmp/cache") false 3 Examples.world0 r w' H).
  - vm_compute in H. discriminate H.
Defined.

(** X12. When the backend is not known to Perceval, the function raises
    [NotFoundError] for this name and changes nothing; this comes before
    the check of the cache arguments. *)
Theorem unknown_backend E fuel backend backend_args qitems task_id cache_path ffc
    max_retries w :
  find_backends E !! backend = None ->
  execute_perceval_job E fuel backend backend_args qitems task_id
    cache_path ffc max_retries w
  = Some (Raise (NotFoundError backend), w).
Proof.
  intros H. unfold execute_perceval_job, PercevalJob_init. rewrite H. reflexivity.
Qed.

Lemma unknown_backend_witness :
  execute_perceval_job Examples.env 0 "unknown" 1%positive "items" "task-1"
    (Some "/tmp/cache") true 3 Examples.world0
  = Some (Raise (NotFoundError "unknown"), Examples.world0).
Proof.
  apply (unknown_backend Examples.env 0 "unknown" 1%positive "items" "task-1"
           (Some "/tmp/cache") true 3 Examples.world0).
  reflexivity.
Defined.

(** X13. An exception that is not an [Exception], such as
    [KeyboardInterrupt], is caught by no clause: the loop raises it at
    once, without counting a failure, recovering the cache or retrying. *)
Theorem uncaught_exception_not_retried E fuel backend_args cache_path ffc
    max_retries resume failures s e s1 :
  run E backend_args resume ffc s = (Raise e, s1) ->
  handler_of e = HUncaught ->
  retry_loop E (S fuel) backend_args cache_path ffc max_retries resume failures s
    = Some (Raise e, s1) /\
  run_calls (outside s1) = S (run_calls (outside s)) /\
  cache_log (outside s1) = cache_log (outside s) /\
  Job.cache (self s1) = Job.cache (self s).
Proof.
  intros Hrun He. split.
  - cbn [retry_loop]. rewrite Hrun, He. reflexivity.
  - apply run_frame in Hrun as (Hj & Hcalls & Hlog & _).
    repeat split; auto. rewrite Hj. reflexivity.
Qed.

Lemma uncaught_exception_not_retried_witness :
  exists s s1,
    retry_loop Examples.env 1 1%positive (Some "/tmp/cache") false 3 false 0 s
    = Some (Raise KeyboardInterrupt, s1) /\
    run_calls (outside s1) = S (run_calls (outside s)) /\
    cache_log (outside s1) = cache_log (outside s) /\
    Job.cache (self s1) = Job.cache (self s).
Proof.
  pose (s := mkState (Job.set_cache (Some "/tmp/cache")
                        (Examples.job_with Examples.interrupted PNone PNone))
               Examples.world0).
  exists s, (snd (run Examples.env 1%positive false false s)).
  apply (uncaught_exception_not_retried Examples.env 0 1%positive (Some "/tmp/cache")
           false 3 false 0 s KeyboardInterrupt).
  - vm_compute. reflexivity.
  - reflexivity.
Defined.

(** ** What the result counts *)

Section Counts.
Context (E : Env).

(** A run whose caller's dict is not allocated raises at the copy. *)
Lemma run_dangling backend_args resume ffc s :
  heap (outside s) !! backend_args = None ->
  run E backend_args resume ffc s
  = (Raise (TypeError "not a dict"),
     mkState (self s) (set_run_calls (S (run_calls (outside s))) (outside s))).
Proof.
  intros Hd. unfold run, bind, modify_world, dict_copy.
  cbn [outside self heap set_run_calls]. rewrite Hd. reflexivity.
Qed.

(** The items recorded by a run, and the name of its queue. *)
Lemma run_count backend_args resume ffc s r s' :
  is_Some (heap (outside s) !! backend_args) ->
  run E backend_args resume ffc s = (r, s') ->
  Job.qitems (self s') = Job.qitems (self s) /\
  exists delivered,
    pushes (Job.qitems (self s)) s s' delivered /\
    JobResult.nitems (Job.result (self s'))
    = (if resume then JobResult.nitems (Job.result (self s)) else 0)
      + Z.of_nat (length delivered).
Proof.
  intros [d Hd] H. split.
  { apply run_frame in H as (-> & _). reflexivity. }
  destruct (run_prelude E _ _ _ _ _ _ _ Hd H)
    as [(s0 & Hpipe & Hself & Hq & _) | (-> & _ & _ & Hself & Hq & _)].
  - assert (Hqi : Job.qitems (self s0) = Job.qitems (self s))
      by (rewrite Hself; destruct (self s); reflexivity).
    assert (Hni : JobResult.nitems (Job.result (self s0))
                  = if resume then JobResult.nitems (Job.result (self s)) else 0)
      by (rewrite Hself; destruct resume, (self s) as [? ? ? ? ? ? ? []]; reflexivity).
    pose proof (keeps_execute E (fun s => s) (fresh (dom (heap (outside s)))) ffc s0) as Hk.
    apply bind_inv in Hpipe as [(p & s1 & Hexec & Hloop) | (e & Hexec & ->)];
      rewrite Hexec in Hk; simpl in Hk; subst.
    + apply consume_count in Hloop as (k & Hpush & Hcount & _).
      exists (take k (fst p)). rewrite Hqi in Hpush. split.
      * exact (pushes_app _ s s0 s' [] _ (pushes_nil _ _ _ Hq) Hpush).
      * rewrite Hcount, Hni. reflexivity.
    + exists []. split; [apply pushes_nil; exact Hq | ]. rewrite Hni. simpl. lia.
  - exists []. split; [apply pushes_nil; exact Hq | ].
    rewrite Hself. simpl. lia.
Qed.

(** The items recorded across the loop: all the items pushed are counted,
    from zero when the loop starts with a run that does not resume. *)
Lemma retry_loop_count backend_args cache_path ffc max_retries :
  forall fuel resume failures s r s',
    is_Some (heap (outside s) !! backend_args) ->
    retry_loop E fuel backend_args cache_path ffc max_retries resume failures s
      = Some (r, s') ->
    exists delivered,
      pushes (Job.qitems (self s)) s s' delivered /\
      JobResult.nitems (Job.result (self s'))
      = (if resume then JobResult.nitems (Job.result (self s)) else 0)
        + Z.of_nat (length delivered).
Proof.
  induction fuel as [| fuel IH]; intros resume failures s r s' Hd H; [discriminate H | ].
  cbn [retry_loop] in H.
  destruct (run E backend_args resume ffc s) as [[[] | e] s1] eqn:Hr;
    destruct (run_count _ _ _ _ _ _ Hd Hr) as (Hq1 & d1 & Hp1 & Hn1).
  { injection H as _ <-. eauto. }
  destruct (handler_of e); try (injection H as _ <-; eauto).
  destruct (rollback E cache_path ffc s1) as [[[] | e'] s2] eqn:Hb;
    pose proof (rollback_quiet _ _ _ _ _ _ Hb) as Hquiet;
    assert (Hp2 : pushes (Job.qitems (self s)) s s2 d1)
      by (rewrite <- (app_nil_r d1);
          apply (pushes_app _ s s1 s2 d1 [] Hp1), pushes_nil, (quiet_queues _ _ Hquiet));
    assert (Hn2 : JobResult.nitems (Job.result (self s2))
                  = (if resume then JobResult.nitems (Job.result (self s)) else 0)
                    + Z.of_nat (length d1))
      by (rewrite (quiet_result _ _ Hquiet); exact Hn1).
  2: { injection H as _ <-. eauto. }
  destruct (negb (has_resuming (self s2)) || (max_retries <=? failures + 1)).
  { injection H as _ <-. eauto. }
  apply IH in H as (d2 & Hp3 & Hn3).
  2: { rewrite (quiet_heap _ _ Hquiet).
       apply run_frame in Hr as (_ & _ & _ & _ & ->). exact Hd. }
  assert (Hq2 : Job.qitems (self s2) = Job.qitems (self s)).
  { destruct Hquiet as [-> _]. cbn. exact Hq1. }
  rewrite Hq2 in Hp3.
  exists (d1 ++ d2)%list. split; [exact (pushes_app _ _ _ _ _ _ Hp2 Hp3) | ].
  rewrite Hn3, Hn2, length_app. lia.
Qed.

End Counts.

Lemma PercevalJob_init_qitems E job_id task_id backend qitems job :
  PercevalJob_init E job_id task_id backend qitems = Ok job ->
  Job.qitems job = qitems.
Proof.
  unfold PercevalJob_init. destruct (find_backends E !! backend); intros H; simplify_eq.
  reflexivity.
Qed.

(** X14. The function only appends to the queue of the job and touches no
    other queue; when it returns a result, the number of items that the
    result records is the number of items appended, all attempts taken
    together. *)
Theorem execute_perceval_job_item_count E fuel backend backend_args qitems task_id
    cache_path ffc max_retries w r w' :
  is_Some (heap w !! backend_args) ->
  execute_perceval_job E fuel backend backend_args qitems task_id
    cache_path ffc max_retries w = Some (r, w') ->
  exists delivered,
    default [] (queues w' !! qitems) = (default [] (queues w !! qitems) ++ delivered)%list /\
    (forall q', q' <> qitems -> queues w' !! q' = queues w !! q') /\
    (forall res, r = Ok res -> JobResult.nitems res = Z.of_nat (length delivered)).
Proof.
  intros Hd H.
  apply execute_perceval_job_inv in H
    as [(e & _ & -> & ->) | [(job & e & s1 & _ & Hs & -> & ->)
                            | (job & s1 & rl & s2 & Hinit & Hs & Hl & -> & ->)]].
  - exists []. rewrite app_nil_r. repeat split; auto. discriminate.
  - exists []. rewrite app_nil_r, (quiet_queues _ _ (setup_quiet _ _ _ _ _ _ Hs)).
    repeat split; auto. discriminate.
  - pose proof (setup_quiet _ _ _ _ _ _ Hs) as Hquiet.
    apply retry_loop_count in Hl as (d & [Hp Hother] & Hn).
    2: { rewrite (quiet_heap _ _ Hquiet). exact Hd. }
    assert (Hq : Job.qitems (self s1) = qitems).
    { destruct Hquiet as [-> _]. cbn. eapply PercevalJob_init_qitems; eauto. }
    rewrite Hq in Hp, Hother. rewrite (quiet_queues _ _ Hquiet) in Hp, Hother.
    exists d. split; [exact Hp | ]. split; [exact Hother | ].
    intros res Hres. destruct rl as [[] | e]; [ | discriminate Hres].
    injection Hres as <-. rewrite Hn. lia.
Qed.

Lemma execute_perceval_job_item_count_witness :
  exists r w' delivered,
    execute_perceval_job Examples.env 3 "lucky" 1%positive "items" "task-1"
      None false 3 Examples.world0 = Some (r, w') /\
    default [] (queues w' !! "items") = delivered /\
    (forall res, r = Ok res -> JobResult.nitems res = Z.of_nat (length delivered)).
Proof.
  destruct (execute_perceval_job Examples.env 3 "lucky" 1%positive "items" "task-1"
              None false 3 Examples.world0) as [[r w'] |] eqn:H.
  - destruct (execute_perceval_job_item_count Examples.env 3 "lucky" 1%positive "items"
                "task-1" None false 3 Examples.world0 r w')
      as (delivered & Hq & _ & Hn).
    + eexists. reflexivity.
    + exact H.
    + exists r, w', delivered. split; [reflexivity | ]. split; [exact Hq | exact Hn].
  - vm_compute in H. discriminate H.
Defined.

(** ** The number of resumptions *)

Section Resumptions.
Context (E : Env).

(** A run that resumes when the conversion of the recorded date raises:
    it raises the exception of the conversion and leaves the job as it
    was. *)
Lemma run_conversion_fails backend_args ffc s d e :
  heap (outside s) !! backend_args = Some d ->
  truthy (JobResult.max_date (Job.result (self s))) = true ->
  unixtime_to_datetime E (JobResult.max_date (Job.result (self s))) = Raise e ->
  exists s', run E backend_args true ffc s = (Raise e, s') /\ self s' = self s.
Proof.
  intros Hd HT Hconv. unfold run, bind, modify_world, dict_copy, get, dict_setitem, when, lift.
  cbn [outside self heap set_run_calls set_heap negb]. rewrite Hd.
  cbn [outside self heap set_run_calls set_heap negb]. rewrite HT, Hconv.
  eexists. split; reflexivity.
Qed.

(** From a stuck state a run that resumes raises and leaves a stuck state. *)
Lemma stuck_run backend_args ffc s r s' :
  stuck E backend_args s ->
  run E backend_args true ffc s = (r, s') ->
  (exists e, r = Raise e) /\ stuck E backend_args s'.
Proof.
  intros Hstuck H.
  pose proof (run_frame E _ _ _ _ _ _ H) as (_ & _ & _ & _ & Hheap).
  destruct (heap (outside s) !! backend_args) as [d |] eqn:Hd.
  - destruct Hstuck as [Hnone | (HT & e & Hconv)]; [congruence | ].
    destruct (run_conversion_fails _ ffc _ _ _ Hd HT Hconv) as (s2 & Hrun & Hself).
    rewrite Hrun in H. injection H as <- <-. split; [eauto | ].
    right. rewrite Hself. eauto.
  - rewrite run_dangling in H by exact Hd. injection H as <- _.
    split; [eauto | ]. left. exact Hheap.
Qed.

(** After a run, either the resumptions are counted (none after a run
    that starts afresh, one more after a run that resumes), or the run has
    raised and the state is stuck. *)
Lemma run_nresumed backend_args resume ffc s r s' :
  run E backend_args resume ffc s = (r, s') ->
  JobResult.nresumed (Job.result (self s'))
  = (if resume then JobResult.nresumed (Job.result (self s)) + 1 else 0) \/
  ((exists e, r = Raise e) /\ stuck E backend_args s').
Proof.
  intros H.
  pose proof (run_frame E _ _ _ _ _ _ H) as (_ & _ & _ & _ & Hheap).
  destruct (heap (outside s) !! backend_args) as [d |] eqn:Hd.
  2: { right. rewrite run_dangling in H by exact Hd. injection H as <- _.
       split; [eauto | ]. left. exact Hheap. }
  destruct (run_prelude E _ _ _ _ _ _ _ Hd H)
    as [(s0 & Hpipe & Hself & _) | (-> & HT & (e & Hconv & ->) & Hself & _)].
  - left.
    pose proof (keeps_bind (fun s => JobResult.nresumed (Job.result (self s)))
                  (_execute E (fresh (dom (heap (outside s)))) ffc) (fun p => consume p.1 p.2)
                  (keeps_execute E _ _ ffc)
                  (fun p => keeps_consume_nresumed p.1 p.2) s0) as Hn.
    rewrite Hpipe in Hn. simpl in Hn. rewrite Hn, Hself.
    destruct resume, (self s) as [? ? ? ? ? ? ? []]; reflexivity.
  - right. split; [eauto | ]. right. rewrite Hself. eauto.
Qed.

Lemma quiet_stuck backend_args s s' :
  quiet s s' -> stuck E backend_args s -> stuck E backend_args s'.
Proof.
  intros Hq. unfold stuck. rewrite (quiet_heap _ _ Hq), (quiet_result _ _ Hq). auto.
Qed.

(** When the loop returns, the resumptions recorded are the calls of
    [run] but the first one. *)
Lemma retry_loop_nresumed backend_args cache_path ffc max_retries (c0 : nat) :
  forall fuel resume failures s s',
    (resume = false /\ run_calls (outside s) = c0) \/
    (resume = true /\
     (stuck E backend_args s \/
      JobResult.nresumed (Job.result (self s))
      = Z.of_nat (run_calls (outside s)) - Z.of_nat c0 - 1)) ->
    retry_loop E fuel backend_args cache_path ffc max_retries resume failures s
      = Some (Ok tt, s') ->
    JobResult.nresumed (Job.result (self s'))
    = Z.of_nat (run_calls (outside s')) - Z.of_nat c0 - 1.
Proof.
  induction fuel as [| fuel IH]; intros resume failures s s' Hinv H; [discriminate H | ].
  cbn [retry_loop] in H.
  destruct (run E backend_args resume ffc s) as [r s1] eqn:Hr.
  pose proof (run_run_calls _ _ _ _ _ _ _ Hr) as Hcalls.
  assert (Hafter : ((exists e, r = Raise e) /\ stuck E backend_args s1) \/
                   JobResult.nresumed (Job.result (self s1))
                   = Z.of_nat (run_calls (outside s1)) - Z.of_nat c0 - 1).
  { destruct Hinv as [[-> Hc] | [-> [Hst | Hn]]].
    - destruct (run_nresumed _ _ _ _ _ _ Hr) as [Hn | Hs]; [right | left; exact Hs].
      rewrite Hn. lia.
    - left. eapply stuck_run; eauto.
    - destruct (run_nresumed _ _ _ _ _ _ Hr) as [Hn' | Hs]; [right | left; exact Hs].
      rewrite Hn', Hn. lia. }
  destruct r as [[] | e].
  { injection H as <-. destruct Hafter as [[[e He] _] | Hn]; [discriminate He | exact Hn]. }
  destruct (handler_of e); try discriminate H.
  destruct (rollback E cache_path ffc s1) as [[[] | e'] s2] eqn:Hb; [ | discriminate H].
  pose proof (rollback_quiet _ _ _ _ _ _ Hb) as Hq.
  destruct (negb (has_resuming (self s2)) || (max_retries <=? failures + 1));
    [discriminate H | ].
  apply IH in H; [exact H | ].
  right. split; [reflexivity | ].
  destruct Hafter as [[_ Hst] | Hn].
  - left. eapply quiet_stuck; eauto.
  - right. rewrite (quiet_result _ _ Hq), (quiet_run_calls _ _ Hq). exact Hn.
Qed.

End Resumptions.

(** X15. When the function returns a result, the number of resumptions it
    records is the number of calls of [run] less one: every call but the
    first one has resumed. *)
Theorem result_counts_resumptions E fuel backend backend_args qitems task_id
    cache_path ffc max_retries w res w' :
  execute_perceval_job E fuel backend backend_args qitems task_id
    cache_path ffc max_retries w = Some (Ok res, w') ->
  JobResult.nresumed res = Z.of_nat (run_calls w') - Z.of_nat (run_calls w) - 1.
Proof.
  intros H.
  apply execute_perceval_job_inv in H
    as [(e & _ & He & _) | [(job & e & s1 & _ & _ & He & _)
                           | (job & s1 & rl & s2 & _ & Hs & Hl & -> & Hres)]];
    try discriminate He.
  destruct rl as [[] | e]; [ | discriminate Hres]. injection Hres as ->.
  apply (retry_loop_nresumed E _ _ _ _ (run_calls w)) in Hl; [exact Hl | ].
  left. split; [reflexivity | ].
  apply (quiet_run_calls _ _ (setup_quiet _ _ _ _ _ _ Hs)).
Qed.

Lemma result_counts_resumptions_witness :
  exists res w',
    execute_perceval_job Examples.env 3 "lucky" 1%positive "items" "task-1"
      None false 3 Examples.world0 = Some (Ok res, w') /\
    JobResult.nresumed res = 2.
Proof.
  destruct (execute_perceval_job Examples.env 3 "lucky" 1%positive "items" "task-1"
              None false 3 Examples.world0) as [[[res | e] w'] |] eqn:H.
  - exists res, w'. split; [reflexivity | ].
    rewrite (result_counts_resumptions Examples.env 3 "lucky" 1%positive "items"
               "task-1" None false 3 Examples.world0 res w' H).
    vm_compute in H. injection H as _ <-. reflexivity.
  - vm_compute in H. discriminate H.
  - vm_compute in H. discriminate H.
Defined.

(** ** Calls made on the cache *)

Section CacheCalls.
Context (E : Env).

Lemma recoveries_app log1 log2 :
  recoveries (log1 ++ log2) = (recoveries log1 + recoveries log2)%nat.
Proof. unfold recoveries. rewrite List.filter_app, length_app. reflexivity. Qed.

(** The calls that [setup] makes: the cache is opened, and backed up only
    when the items are not fetched from it; it is never recovered. *)
Lemma setup_log cache_path ffc s r s' :
  setup E cache_path ffc s = (r, s') ->
  exists evs,
    cache_log (outside s') = (cache_log (outside s) ++ evs)%list /\
    Forall (fun ev => exists p, ev = CacheOpened p \/ (ffc = false /\ ev = CacheBackup p)) evs.
Proof.
  unfold setup, bind, get. intros H.
  destruct (negb (has_caching (self s)) && (path_given cache_path || ffc)).
  { unfold raise in H. injection H as _ <-. exists []. rewrite app_nil_r. auto. }
  destruct cache_path as [dirpath |];
    [destruct (path_given (Some dirpath)) | ]; cbn [when] in H;
    try (unfold ret in H; injection H as _ <-; exists []; rewrite app_nil_r; auto; fail).
  unfold initialize_cache in H. destruct (String.eqb dirpath "").
  { unfold raise in H. injection H as _ <-. exists []. rewrite app_nil_r. auto. }
  unfold bind, cache_call, modify_job, when, ret in H.
  destruct (cache_open E dirpath (cache_log (outside s))).
  { injection H as _ <-. exists [CacheOpened dirpath]. split; [reflexivity | ].
    repeat constructor. eauto. }
  cbn [self outside cache_log set_cache_log] in H.
  destruct ffc; cbn [negb] in H.
  - injection H as _ <-. exists [CacheOpened dirpath]. split; [reflexivity | ].
    repeat constructor. eauto.
  - exists [CacheOpened dirpath; CacheBackup dirpath].
    destruct (cache_backup E dirpath _); injection H as _ <-;
      (split; [cbn; rewrite <- app_assoc; reflexivity | repeat constructor; eauto]).
Qed.

(** What a rollback does to the cache of the job and to the log: nothing
    when the cache is not writable or the job has no cache left; otherwise
    one recovery is logged, and the job has no cache any more when the
    rollback returns. *)
Lemma rollback_cases cache_path ffc s r s' :
  rollback E cache_path ffc s = (r, s') ->
  (cache_log (outside s') = cache_log (outside s) /\
   (path_given cache_path && negb ffc = false /\ Job.cache (self s') = Job.cache (self s) \/
    Job.cache (self s) = None /\ Job.cache (self s') = None)) \/
  (path_given cache_path && negb ffc = true /\
   exists p, Job.cache (self s) = Some p /\
             cache_log (outside s') = (cache_log (outside s) ++ [CacheRecovered p])%list /\
             (r = Ok tt -> Job.cache (self s') = None)).
Proof.
  unfold rollback, when. destruct (path_given cache_path && negb ffc).
  2: { unfold ret. intros H. injection H as _ <-. auto. }
  intros H. unfold recover_cache in H. unfold bind, get, cache_call, modify_job, ret in H.
  destruct (Job.cache (self s)) as [p |] eqn:Hc.
  - right. split; [reflexivity | ]. exists p. split; [reflexivity | ].
    destruct (cache_recover E p (cache_log (outside s))); injection H as <- <-;
      (split; [reflexivity | ]); [discriminate | intros _; reflexivity].
  - injection H as _ <-. left. split; [reflexivity | ]. right. auto.
Qed.

(** Across the loop at most one recovery is logged, and none when the job
    has no cache. *)
Lemma retry_loop_recoveries backend_args cache_path ffc max_retries :
  forall fuel resume failures s r s',
    retry_loop E fuel backend_args cache_path ffc max_retries resume failures s
      = Some (r, s') ->
    (recoveries (cache_log (outside s'))
     <= recoveries (cache_log (outside s))
        + (match Job.cache (self s) with Some _ => 1 | None => 0 end))%nat.
Proof.
  induction fuel as [| fuel IH]; intros resume failures s r s' H; [discriminate H | ].
  cbn [retry_loop] in H.
  destruct (run E backend_args resume ffc s) as [[[] | e] s1] eqn:Hr;
    pose proof (run_frame E _ _ _ _ _ _ Hr) as (Hj & _ & Hlog & _);
    assert (Hc : Job.cache (self s1) = Job.cache (self s)) by (rewrite Hj; reflexivity).
  { injection H as _ <-. rewrite Hlog. lia. }
  destruct (handler_of e); try (injection H as _ <-; rewrite Hlog; lia).
  destruct (rollback E cache_path ffc s1) as [r2 s2] eqn:Hb.
  pose proof (rollback_cases _ _ _ _ _ Hb) as Hcases.
  rewrite Hc, Hlog in Hcases.
  assert (Hstep : (recoveries (cache_log (outside s2))
                   <= recoveries (cache_log (outside s))
                      + (match Job.cache (self s) with Some _ => 1 | None => 0 end))%nat /\
                  (r2 = Ok tt ->
                   (recoveries (cache_log (outside s2))
                    + (match Job.cache (self s2) with Some _ => 1 | None => 0 end)
                    <= recoveries (cache_log (outside s))
                       + (match Job.cache (self s) with Some _ => 1 | None => 0 end))%nat)).
  { destruct Hcases as [(-> & [(_ & ->) | (-> & ->)]) | (_ & p & -> & -> & Hnone)].
    - split; [lia | intros _; lia].
    - split; [lia | intros _; lia].
    - rewrite recoveries_app. cbn. split; [lia | ].
      intros Hok. rewrite (Hnone Hok). lia. }
  destruct Hstep as [Hle Hok].
  destruct r2 as [[] | e']; [ | injection H as _ <-; exact Hle].
  destruct (negb (has_resuming (self s2)) || (max_retries <=? failures + 1)).
  - injection H as _ <-. exact Hle.
  - apply IH in H. specialize (Hok eq_refl). lia.
Qed.

End CacheCalls.

(** X16. The cache is recovered at most once in a call of the function,
    however many runs fail: after the first recovery the job has no cache
    any more. *)
Theorem cache_recovered_at_most_once E fuel backend backend_args qitems task_id
    cache_path ffc max_retries w r w' :
  execute_perceval_job E fuel backend backend_args qitems task_id
    cache_path ffc max_retries w = Some (r, w') ->
  (recoveries (cache_log w') <= recoveries (cache_log w) + 1)%nat.
Proof.
  intros H.
  apply execute_perceval_job_inv in H
    as [(e & _ & _ & ->) | [(job & e & s1 & _ & Hs & _ & ->)
                           | (job & s1 & rl & s2 & _ & Hs & Hl & -> & _)]].
  - lia.
  - apply setup_log in Hs as (evs & -> & Hevs). rewrite recoveries_app.
    assert (recoveries evs = 0%nat); [ | cbn [outside]; lia].
    clear -Hevs. induction Hevs as [| ev evs (p & [-> | [_ ->]]) _ IH]; auto.
  - apply retry_loop_recoveries in Hl.
    apply setup_log in Hs as (evs & Hlog & Hevs). rewrite Hlog, recoveries_app in Hl.
    assert (recoveries evs = 0%nat).
    { clear -Hevs. induction Hevs as [| ev evs (p & [-> | [_ ->]]) _ IH]; auto. }
    cbn [outside] in Hl. destruct (Job.cache (self s1)); lia.
Qed.

Lemma cache_recovered_at_most_once_witness :
  exists r w',
    execute_perceval_job Examples.env 3 "flaky" 1%positive "items" "task-1"
      (Some "/tmp/cache") false 3 Examples.world0 = Some (r, w') /\
    (recoveries (cache_log w') <= 1)%nat.
Proof.
  destruct (execute_perceval_job Examples.env 3 "flaky" 1%positive "items" "task-1"
              (Some "/tmp/cache") false 3 Examples.world0) as [[r w'] |] eqn:H.
  - exists r, w'. split; [reflexivity | ].
    apply (cache_recovered_at_most_once Examples.env 3 "flaky" 1%positive "items"
             "task-1" (Some "/tmp/cache") false 3 Examples.world0 r w' H).
  - vm_compute in H. discriminate H.
Defined.

(** X17. When the items are fetched from the cache, the function never
    backs the cache up and never recovers it, whatever fails: the only
    calls it makes on the cache are openings. *)
Theorem fetch_from_cache_only_opens E fuel backend backend_args qitems task_id
    cache_path max_retries w r w' :
  execute_perceval_job E fuel backend backend_args qitems task_id
    cache_path true max_retries w = Some (r, w') ->
  exists evs,
    cache_log w' = (cache_log w ++ evs)%list /\
    Forall (fun ev => exists p, ev = CacheOpened p) evs.
Proof.
  intros H.
  assert (Hopen : forall s r1 s1,
            setup E cache_path true s = (r1, s1) ->
            exists evs, cache_log (outside s1) = (cache_log (outside s) ++ evs)%list /\
                        Forall (fun ev => exists p, ev = CacheOpened p) evs).
  { intros s r1 s1 Hs. apply setup_log in Hs as (evs & Hlog & Hevs).
    exists evs. split; [exact Hlog | ].
    eapply Forall_impl; [exact Hevs | ].
    intros ev (p & [-> | [Hf _]]); [eauto | discriminate Hf]. }
  apply execute_perceval_job_inv in H
    as [(e & _ & _ & ->) | [(job & e & s1 & _ & Hs & _ & ->)
                           | (job & s1 & rl & s2 & _ & Hs & Hl & -> & _)]].
  - exists []. rewrite app_nil_r. auto.
  - apply (Hopen _ _ _ Hs).
  - apply (retry_loop_rel E
             (fun s s' => cache_log (outside s') = cache_log (outside s))) in Hl.
    + rewrite Hl. apply (Hopen _ _ _ Hs).
    + reflexivity.
    + intros s3 s4 s5 H1 H2. congruence.
    + intros resume s3 r3 s4 Hr. apply run_frame in Hr as (_ & _ & Hr & _). exact Hr.
    + intros s3 r3 s4 Hb. unfold rollback in Hb. rewrite andb_false_r in Hb.
      cbn [when] in Hb. unfold ret in Hb. injection Hb as _ <-. reflexivity.
Qed.

Lemma fetch_from_cache_only_opens_witness :
  exists r w' evs,
    execute_perceval_job Examples.env 3 "flaky" 1%positive "items" "task-1"
      (Some "/tmp/cache") true 3 Examples.world0 = Some (r, w') /\
    cache_log w' = evs /\
    Forall (fun ev => exists p, ev = CacheOpened p) evs.
Proof.
  destruct (execute_perceval_job Examples.env 3 "flaky" 1%positive "items" "task-1"
              (Some "/tmp/cache") true 3 Examples.world0) as [[r w'] |] eqn:H.
  - destruct (fetch_from_cache_only_opens Examples.env 3 "flaky" 1%positive "items"
                "task-1" (Some "/tmp/cache") 3 Examples.world0 r w' H)
      as (evs & Hlog & Hevs).
    exists r, w', evs. split; [reflexivity | ]. split; [exact Hlog | exact Hevs].
  - vm_compute in H. discriminate H.
Defined.

(** ** The maximum date, continued *)

Lemma consume_max_date_witness :
  let s := mkState (Examples.job_with Examples.around_epoch (PInt 15) PNone)
             Examples.world0 in
  exists s',
    consume [Examples.new_item "a" 10; Examples.new_item "b" 30; Examples.new_item "c" 20]
      None s = (Ok tt, s') /\
    JobResult.max_date (Job.result (self s')) = PInt 30.
Proof.
  intros s.
  apply (consume_max_date
           [Examples.new_item "a" 10; Examples.new_item "b" 30; Examples.new_item "c" 20]
           [10; 30; 20] s).
  - repeat constructor; eexists; reflexivity.
  - repeat constructor; lia.
  - right. eexists. reflexivity.
Defined.
